(** * Selenium web scraping commands: [autogpt/commands/web_selenium.py]

  A shallow embedding of the module and of the Python built-ins it
  relies on, followed by the properties of the text and link pipeline,
  of the error handling of the QA helpers and of the life cycle of the
  browser process. *)

From Stdlib Require Import NArith List Bool Lia String Ascii.
From stdpp Require Import gmap.
Import ListNotations.

(** ** Python strings

  A Python [str] is a sequence of Unicode code points; a code point is
  a number in [N].  The operations below are the built-in methods the
  module calls: [str.splitlines], [str.strip], [str.split] with the
  two-space separator and [str.join]. *)

Module PyStr.

Definition char := N.
Definition str := list char.

(** Literals of the source are ASCII; [py] reads one as code points. *)
Fixpoint py (s : string) : str :=
  match s with
  | EmptyString => []
  | String a r => N_of_ascii a :: py r
  end.
Arguments py s%_string.

Definition LF : char := 10%N.
Definition CR : char := 13%N.
Definition SP : char := 32%N.

(** The characters [str.isspace] accepts, which [str.strip] removes. *)
Definition is_space (c : char) : bool :=
  ((9 <=? c) && (c <=? 13)
   || (28 <=? c) && (c <=? 32)
   || (c =? 133) || (c =? 160) || (c =? 5760)
   || (8192 <=? c) && (c <=? 8202)
   || (c =? 8232) || (c =? 8233) || (c =? 8239) || (c =? 8287)
   || (c =? 12288))%N.

(** The line boundaries of [str.splitlines]. *)
Definition is_linebreak (c : char) : bool :=
  ((10 <=? c) && (c <=? 13)
   || (28 <=? c) && (c <=? 30)
   || (c =? 133) || (c =? 8232) || (c =? 8233))%N.

(** Puts a character in front of the first piece of a split. *)
Definition push_front (c : char) (ps : list str) : list str :=
  match ps with
  | [] => [[c]]
  | p :: ps' => (c :: p) :: ps'
  end.

(** [s.splitlines()]: a line ends at a line boundary, CR LF counts as
    one boundary, and no empty line follows the last boundary. *)
Fixpoint splitlines (s : str) : list str :=
  match s with
  | [] => []
  | c :: s' =>
      if is_linebreak c then
        match s' with
        | d :: s'' =>
            if ((c =? CR) && (d =? LF))%N
            then [] :: splitlines s''
            else [] :: splitlines s'
        | [] => [[]]
        end
      else push_front c (splitlines s')
  end.

(** [s.lstrip()], [s.rstrip()] and [s.strip()] without argument. *)
Fixpoint lstrip (s : str) : str :=
  match s with
  | [] => []
  | c :: s' => if is_space c then lstrip s' else s
  end.

Fixpoint rstrip (s : str) : str :=
  match s with
  | [] => []
  | c :: s' =>
      match rstrip s' with
      | [] => if is_space c then [] else [c]
      | r => c :: r
      end
  end.

Definition strip (s : str) : str := rstrip (lstrip s).

(** [s.split("  ")]: the occurrences of the separator are found from
    the left and do not overlap; the empty string gives [['']]. *)
Fixpoint split_double_space (s : str) : list str :=
  match s with
  | [] => [[]]
  | c :: s' =>
      match s' with
      | d :: s'' =>
          if ((c =? SP) && (d =? SP))%N
          then [] :: split_double_space s''
          else push_front c (split_double_space s')
      | [] => [[c]]
      end
  end.

(** [sep.join(l)]. *)
Fixpoint join (sep : str) (l : list str) : str :=
  match l with
  | [] => []
  | x :: rest =>
      match rest with
      | [] => x
      | _ :: _ => x ++ sep ++ join sep rest
      end
  end.

(** Truth value of a string: [if chunk]. *)
Definition truthy (s : str) : bool :=
  match s with [] => false | _ :: _ => true end.

End PyStr.

Import PyStr.

(** ** The parsed document

    [BeautifulSoup(page_source, "html.parser")] gives a tree of tags,
    text strings and comments.  The parser itself belongs to the
    library; the functions below are the tree operations the module
    uses on its result. *)

Module Bs4.

#[warnings="-register-all"]
Inductive node :=
| Tag (name : str) (attrs : gmap str str) (children : list node)
| NavigableString (s : str)
| Comment (s : str).

(** The contents of the [BeautifulSoup] object, in document order. *)
Definition soup := list node.

(** [tag.get_text()]: the text strings below a node, concatenated in
    document order; comments are no text. *)
Fixpoint node_text (n : node) : str :=
  match n with
  | Tag _ _ children => flat_map node_text children
  | NavigableString s => s
  | Comment _ => []
  end.

Definition get_text (doc : soup) : str := flat_map node_text doc.

(** [for t in soup(names): t.extract()]: [soup(names)] finds every tag
    with one of the names, at any depth, and [extract] takes a tag out
    of its parent together with what it contains.  A tag found inside
    another one that was taken out before goes with that one, so the
    loop leaves the tree without any of the tags found. *)
Fixpoint extract_node (names : list str) (n : node) : list node :=
  match n with
  | Tag name attrs children =>
      if bool_decide (name ∈ names) then []
      else [Tag name attrs (flat_map (extract_node names) children)]
  | NavigableString _ | Comment _ => [n]
  end.

Definition extract_all (names : list str) (doc : soup) : soup :=
  flat_map (extract_node names) doc.

(** [soup.find_all(name, attr=True)]: the tags of that name carrying
    the attribute, in document order, nested ones included. *)
Fixpoint find_in_node (name attr : str) (n : node) : list node :=
  match n with
  | Tag name' attrs children =>
      (if bool_decide (name' = name) && bool_decide (is_Some (attrs !! attr))
       then [n] else [])
      ++ flat_map (find_in_node name attr) children
  | NavigableString _ | Comment _ => []
  end.

Definition find_all (name attr : str) (doc : soup) : list node :=
  flat_map (find_in_node name attr) doc.

(** [tag[attr]] for a tag known to carry the attribute. *)
Definition get_attr (attr : str) (n : node) : str :=
  match n with
  | Tag _ attrs _ => default [] (attrs !! attr)
  | NavigableString _ | Comment _ => []
  end.

End Bs4.

(** ** Resolution of a hyperlink against the page URL

    The facility that resolves a href is outside the module at hand, as
    [extract_hyperlinks], which calls it, is.  This section is its
    model: the reference resolution of RFC 3986, section 5.2. *)

Module Url.

(** The five components of a URI reference (RFC 3986, section 3). *)
Record parts := {
  scheme : option str;
  authority : option str;
  path : str;
  query : option str;
  fragment : option str
}.

Definition COLON : char := 58%N.
Definition SLASH : char := 47%N.
Definition QUESTION : char := 63%N.
Definition HASH : char := 35%N.
Definition DOT : char := 46%N.

Definition is_alpha (c : char) : bool :=
  ((65 <=? c) && (c <=? 90) || (97 <=? c) && (c <=? 122))%N.

Definition is_scheme_char (c : char) : bool :=
  (is_alpha c || (48 <=? c) && (c <=? 57)
   || (c =? 43) || (c =? 45) || (c =? DOT))%N.

(** The scheme characters up to the first colon, and what follows it. *)
Fixpoint scheme_tail (s : str) : option (str * str) :=
  match s with
  | [] => None
  | c :: s' =>
      if (c =? COLON)%N then Some ([], s')
      else if is_scheme_char c then
        match scheme_tail s' with
        | Some (a, r) => Some (c :: a, r)
        | None => None
        end
      else None
  end.

(** A scheme is a letter followed by scheme characters and a colon. *)
Definition split_scheme (s : str) : option str * str :=
  match s with
  | [] => (None, [])
  | c :: s' =>
      if is_alpha c then
        match scheme_tail s' with
        | Some (a, r) => (Some (c :: a), r)
        | None => (None, s)
        end
      else (None, s)
  end.

(** Cuts a string before the first character that satisfies [stop]. *)
Fixpoint break (stop : char -> bool) (s : str) : str * str :=
  match s with
  | [] => ([], [])
  | c :: s' =>
      if stop c then ([], s)
      else let (a, b) := break stop s' in (c :: a, b)
  end.

Definition split_authority (s : str) : option str * str :=
  match s with
  | c :: d :: r =>
      if ((c =? SLASH) && (d =? SLASH))%N then
        let (a, b) :=
          break (fun x => (x =? SLASH) || (x =? QUESTION) || (x =? HASH))%N r
        in (Some a, b)
      else (None, s)
  | _ => (None, s)
  end.

Definition split_query (s : str) : option str * str :=
  match s with
  | c :: r =>
      if (c =? QUESTION)%N then
        let (a, b) := break (fun x => x =? HASH)%N r in (Some a, b)
      else (None, s)
  | [] => (None, [])
  end.

Definition split_fragment (s : str) : option str :=
  match s with
  | c :: r => if (c =? HASH)%N then Some r else None
  | [] => None
  end.

Definition parse (s : str) : parts :=
  let (sch, r1) := split_scheme s in
  let (auth, r2) := split_authority r1 in
  let (p, r3) := break (fun x => (x =? QUESTION) || (x =? HASH))%N r2 in
  let (q, r4) := split_query r3 in
  {| scheme := sch; authority := auth; path := p; query := q;
     fragment := split_fragment r4 |}.

(** Recomposition of the components (RFC 3986, section 5.3). *)
Definition unparse (t : parts) : str :=
  match scheme t with Some s => s ++ [COLON] | None => [] end
  ++ match authority t with Some a => [SLASH; SLASH] ++ a | None => [] end
  ++ path t
  ++ match query t with Some q => QUESTION :: q | None => [] end
  ++ match fragment t with Some f => HASH :: f | None => [] end.

(** The segments of a path: [path.split("/")]. *)
Fixpoint segments (s : str) : list str :=
  match s with
  | [] => [[]]
  | c :: s' =>
      if (c =? SLASH)%N then [] :: segments s'
      else push_front c (segments s')
  end.

(** Removal of the "." and ".." segments (RFC 3986, section 5.2.4);
    [stack] holds the segments kept so far, the last one first. *)
Fixpoint resolve_dots (stack : list str) (segs : list str) : list str :=
  match segs with
  | [] => rev stack
  | seg :: rest =>
      if bool_decide (seg = [DOT]) then
        match rest with
        | [] => rev ([] :: stack)
        | _ :: _ => resolve_dots stack rest
        end
      else if bool_decide (seg = [DOT; DOT]) then
        match rest with
        | [] => rev ([] :: tl stack)
        | _ :: _ => resolve_dots (tl stack) rest
        end
      else resolve_dots (seg :: stack) rest
  end.

Definition remove_dot_segments (p : str) : str :=
  match segments p with
  | [] :: (_ :: _) as segs => SLASH :: join [SLASH] (resolve_dots [] segs)
  | segs => join [SLASH] (resolve_dots [] segs)
  end.

(** The base path up to its last slash (RFC 3986, section 5.2.3). *)
Fixpoint directory (p : str) : str :=
  match p with
  | [] => []
  | c :: p' =>
      match directory p' with
      | [] => if (c =? SLASH)%N then [c] else []
      | d => c :: d
      end
  end.

Definition merge (base : parts) (ref_path : str) : str :=
  match authority base, path base with
  | Some _, [] => SLASH :: ref_path
  | _, p => directory p ++ ref_path
  end.

(** Transformation of a reference into its target (RFC 3986, section
    5.2.2). *)
Definition resolve (base ref : parts) : parts :=
  match scheme ref with
  | Some _ =>
      {| scheme := scheme ref; authority := authority ref;
         path := remove_dot_segments (path ref); query := query ref;
         fragment := fragment ref |}
  | None =>
      match authority ref with
      | Some _ =>
          {| scheme := scheme base; authority := authority ref;
             path := remove_dot_segments (path ref); query := query ref;
             fragment := fragment ref |}
      | None =>
          match path ref with
          | [] =>
              {| scheme := scheme base; authority := authority base;
                 path := path base;
                 query := match query ref with
                          | Some q => Some q
                          | None => query base
                          end;
                 fragment := fragment ref |}
          | c :: _ =>
              {| scheme := scheme base; authority := authority base;
                 path := if (c =? SLASH)%N
                         then remove_dot_segments (path ref)
                         else remove_dot_segments (merge base (path ref));
                 query := query ref;
                 fragment := fragment ref |}
          end
      end
  end.

(** Modelled from the spec: the hyperlink-resolution facility that
    [extract_hyperlinks] calls; it is no part of the module at hand.  The
    spec asks that a href be resolved against the base URL to an absolute
    URL, and the model is the reference resolution of RFC 3986 against a
    base that has a scheme; a base without one resolves nothing. *)
Definition urljoin (base url : str) : str :=
  match scheme (parse base) with
  | Some _ => unparse (resolve (parse base) (parse url))
  | None => url
  end.

(** A URL is absolute when it starts with a scheme. *)
Definition is_absolute (url : str) : bool :=
  match scheme (parse url) with Some _ => true | None => false end.

End Url.

(** ** Hyperlinks of a page: [autogpt.processing.html] *)

Module Html.

(** Modelled from the spec: [extract_hyperlinks] of
    [autogpt.processing.html], which is no part of the module at hand.
    The anchor elements with a href attribute are located; each href is
    resolved against the base URL and paired with the visible text of
    the anchor, or with the URL itself when the anchor has no text.
    Anchors without href are skipped and nothing is deduplicated. *)
Definition extract_hyperlinks (doc : Bs4.soup) (base_url : str)
  : list (str * str) :=
  map (fun link =>
         let link_url := Url.urljoin base_url (Bs4.get_attr (py "href") link) in
         let link_text := Bs4.node_text link in
         (if truthy link_text then link_text else link_url, link_url))
      (Bs4.find_all (py "a") (py "href") doc).

(** Modelled from the spec: [format_hyperlinks] of
    [autogpt.processing.html], which is no part of the module at hand.
    Each pair is formatted as the string "text (url)". *)
Definition format_hyperlinks (hyperlinks : list (str * str)) : list str :=
  map (fun '(link_text, link_url) =>
         link_text ++ py " (" ++ link_url ++ py ")")
      hyperlinks.

End Html.

(** ** The outside world

    The browser, the automation library that drives it, the file system
    and the summarizer are outside the module.  Every call into them is
    a [call]; what a call answers is up to the environment, which sees
    the whole history.  The model keeps track of the browser processes
    itself: a successful start adds a process, a successful quit ends
    one. *)

Module Extern.

Inductive exn :=
| KeyError (key : str)
| AttributeError (name : str)
| NoSuchElementException
| TimeoutException
| WebDriverException
| OSError.

Inductive result (A : Type) : Type :=
| Ok (a : A)
| Raise (e : exn).
Arguments Ok {A} a.
Arguments Raise {A} e.

(** A [WebDriver] object and a [WebElement] object. *)
Definition handle := nat.
Definition element := nat.

Inductive options_class := ChromeOptions | SafariOptions | FirefoxOptions.
Inductive driver_manager := ChromeDriverManager | GeckoDriverManager.
Inductive webdriver_class := Chrome | Safari | Firefox.

Record options := {
  options_of : options_class;
  experimental_options : list (str * bool);
  arguments : list str
}.

Inductive call : Type -> Type :=
| OptionsInit (cls : options_class) : call unit
| AddExperimentalOption (o : options) (name : str) (value : bool) : call unit
| AddArgument (o : options) (argument : str) : call unit
| Install (m : driver_manager) : call str
| Start (cls : webdriver_class) (executable_path : option str) (o : options)
  : call unit
| Get (d : handle) (url : str) : call unit
| WaitUntilPresent (d : handle) (timeout : nat) (by_ value : str) : call unit
| ExecuteScript (d : handle) (script : str) : call str
| PageSource (d : handle) : call str
| FindElement (d : handle) (by_ : str) (value : option str) : call element
| FindElements (d : handle) (by_ value : str) : call (list element)
| ElementText (e : element) : call str
| ElementClick (e : element) : call unit
| ElementSendkeys (e : element) (text : str) : call unit
| Quit (d : handle) : call unit
| ReadFile (path : str) : call str
| SummarizeText (url text question : str) (d : handle) : call str.

Inductive event :=
| Event (A : Type) (c : call A).
Arguments Event {A} c.

Record world := {
  running : list handle;
  started : nat;
  history : list event
}.

Definition log {A} (c : call A) (w : world) : world :=
  {| running := running w; started := started w;
     history := Event c :: history w |}.

(** Computations that read and change the world and may raise. *)
Definition M (A : Type) : Type := world -> result A * world.

Definition ret {A} (a : A) : M A := fun w => (Ok a, w).

Definition raise {A} (e : exn) : M A := fun w => (Raise e, w).

Definition bind {A B} (m : M A) (k : A -> M B) : M B :=
  fun w =>
    match m w with
    | (Ok a, w') => k a w'
    | (Raise e, w') => (Raise e, w')
    end.

#[global] Instance M_ret : MRet M := @ret.
#[global] Instance M_bind : MBind M := fun A B k m => bind m k.

(** [try: body except: handler], the bare [except] that catches
    everything. *)
Definition try_except {A} (body handler : M A) : M A :=
  fun w =>
    match body w with
    | (Ok a, w') => (Ok a, w')
    | (Raise _, w') => handler w'
    end.

(** [[f(x) for x in l]] for an [f] with effects. *)
Fixpoint for_each {A B} (f : A -> M B) (l : list A) : M (list B) :=
  match l with
  | [] => ret []
  | x :: l' => bind (f x) (fun y => bind (for_each f l') (fun ys => ret (y :: ys)))
  end.

(** Values of the types the QA helpers return. *)
#[warnings="-register-all"]
Inductive pyval :=
| VStr (s : str)
| VList (l : list pyval)
| VTuple (l : list pyval)
| VDict (d : list (str * pyval)).

(** The configuration object of [autogpt.config]. *)
Record Config := {
  selenium_web_browser : str;
  selenium_headless : bool
}.

(** What the module is run against.  [BeautifulSoup] is the parser on
    the markup it accepts; what is said of a page below is said of the
    document parsed from it.  [repr] is the built-in of that name on
    strings. *)
Record Env := {
  oracle : forall A, call A -> world -> result A;
  BeautifulSoup : str -> Bs4.soup;
  repr : str -> str;
  CFG : Config;
  platform : str;
  FILE_DIR : str
}.

(** Selenium's locator strategies. *)
Definition By_XPATH : str := py "xpath".
Definition By_TAG_NAME : str := py "tag name".

End Extern.

Import Extern.

(** ** The module [web_selenium] *)

Section WebSelenium.

Variable env : Env.

(** A call into the outside world: the environment answers, the call is
    recorded. *)
Definition perform {A} (c : call A) : M A :=
  fun w => (oracle env A c w, log c w).

(** [webdriver.Chrome(...)] and its siblings: a browser process is
    started and the new driver object is returned. *)
Definition webdriver_start (cls : webdriver_class)
    (executable_path : option str) (o : options) : M handle :=
  fun w =>
    match oracle env unit (Start cls executable_path o) w with
    | Ok _ =>
        (Ok (started w),
         {| running := started w :: running w;
            started := S (started w);
            history := Event (Start cls executable_path o) :: history w |})
    | Raise e => (Raise e, log (Start cls executable_path o) w)
    end.

(** [driver.quit()]: the browser process of the driver is ended. *)
Definition driver_quit (d : handle) : M unit :=
  fun w =>
    match oracle env unit (Quit d) w with
    | Ok _ =>
        (Ok tt,
         {| running := List.filter (fun x => negb (x =? d)) (running w);
            started := started w;
            history := Event (Quit d) :: history w |})
    | Raise e => (Raise e, log (Quit d) w)
    end.

(** [d[k]] on a dict. *)
Definition getitem {V} (d : gmap str V) (k : str) : M V :=
  match d !! k with
  | Some v => ret v
  | None => raise (KeyError k)
  end.

(** [cls()], [options.add_experimental_option] and
    [options.add_argument].  Whether a class of options has the method
    is the affair of the library: where it has not, the call raises,
    which is one of the answers the environment can give. *)
Definition new_options (cls : options_class) : M options :=
  perform (OptionsInit cls);;
  mret {| options_of := cls; experimental_options := []; arguments := [] |}.

Definition add_experimental_option (o : options) (name : str) (value : bool)
  : M options :=
  perform (AddExperimentalOption o name value);;
  mret {| options_of := options_of o;
          experimental_options := experimental_options o ++ [(name, value)];
          arguments := arguments o |}.

Definition add_argument (o : options) (argument : str) : M options :=
  perform (AddArgument o argument);;
  mret {| options_of := options_of o;
          experimental_options := experimental_options o;
          arguments := arguments o ++ [argument] |}.

(** [WebDriverWait(driver, 10).until(
      EC.presence_of_element_located((By.TAG_NAME, "body")))]. *)
Definition wait_for_body (driver : handle) : M unit :=
  perform (WaitUntilPresent driver 10 By_TAG_NAME (py "body")).

(** [str(l)] for a list of strings, as an f-string formats it. *)
Definition str_of_list (l : list str) : str :=
  py "[" ++ join (py ", ") (map (repr env) l) ++ py "]".

Definition options_available : gmap str options_class :=
  <[py "chrome" := ChromeOptions]>
    (<[py "safari" := SafariOptions]>
       (<[py "firefox" := FirefoxOptions]> ∅)).

Definition create_driver : M handle :=
  cls ← getitem options_available (selenium_web_browser (CFG env));
  options ← new_options cls;
  options ← add_experimental_option options (py "detach") true;
  options ← add_argument options
    (py "user-agent=Mozilla/5.0 (Windows NT 10.0; Win64; x64) AppleWebKit/537.36 (KHTML, like Gecko) Chrome/112.0.5615.49 Safari/537.36");
  if bool_decide (selenium_web_browser (CFG env) = py "firefox") then
    executable_path ← perform (Install GeckoDriverManager);
    webdriver_start Firefox (Some executable_path) options
  else if bool_decide (selenium_web_browser (CFG env) = py "safari") then
    webdriver_start Safari None options
  else
    options ←
      (if bool_decide (platform env = py "linux")
          || bool_decide (platform env = py "linux2")
       then
         options ← add_argument options (py "--disable-dev-shm-usage");
         add_argument options (py "--remote-debugging-port=9222")
       else mret options);
    options ← add_argument options (py "--no-sandbox");
    options ←
      (if selenium_headless (CFG env) then
         options ← add_argument options (py "--headless");
         add_argument options (py "--disable-gpu")
       else mret options);
    executable_path ← perform (Install ChromeDriverManager);
    webdriver_start Chrome (Some executable_path) options.

(** The three lines that turn the text of the page into clean lines:
    the chunks that pass the filter, and their join. *)
Definition text_chunks (text : str) : list str :=
  let lines := map strip (splitlines text) in
  let chunks :=
    flat_map (fun line => map strip (split_double_space line)) lines in
  List.filter truthy chunks.

Definition normalize_whitespace (text : str) : str :=
  join [LF] (text_chunks text).

(** What [scrape_text_with_selenium] does with the markup it has
    fetched. *)
Definition text_of_page (page_source : str) : str :=
  let soup := BeautifulSoup env page_source in
  let soup := Bs4.extract_all [py "script"; py "style"] soup in
  let text := Bs4.get_text soup in
  normalize_whitespace text.

Definition scrape_text_with_selenium (url : str) (driver : handle)
  : M (handle * str) :=
  perform (Get driver url);;
  wait_for_body driver;;
  page_source ←
    perform (ExecuteScript driver (py "return document.body.outerHTML;"));
  mret (driver, text_of_page page_source).

(** What [scrape_links_with_selenium] does with the markup. *)
Definition links_of_page (page_source url : str) : list str :=
  let soup := BeautifulSoup env page_source in
  let soup := Bs4.extract_all [py "script"; py "style"] soup in
  let hyperlinks := Html.extract_hyperlinks soup url in
  Html.format_hyperlinks hyperlinks.

Definition scrape_links_with_selenium (driver : handle) (url : str)
  : M (list str) :=
  page_source ← perform (PageSource driver);
  mret (links_of_page page_source url).

Definition close_browser (driver : handle) : M unit :=
  driver_quit driver.

Definition add_header (driver : handle) : M unit :=
  script ← perform (ReadFile (FILE_DIR env ++ py "/js/overlay.js"));
  perform (ExecuteScript driver script);;
  mret tt.

Definition summarize_text (url text question : str) (driver : handle)
  : M str :=
  perform (SummarizeText url text question driver).

(** [if len(links) > 5: links = links[:5]]. *)
Definition limit_links (links : list str) : list str :=
  if 5 <? length links then firstn 5 links else links.

(** The f-string that [browse_website] returns. *)
Definition answer (summary_text : str) (links : list str) : str :=
  py "Answer gathered from website: " ++ summary_text
  ++ [SP; LF; SP; LF] ++ py " Links: " ++ str_of_list links.

Definition browse_website (url question : str) : M (str * handle) :=
  driver ← create_driver;
  '(driver, text) ← scrape_text_with_selenium url driver;
  add_header driver;;
  summary_text ← summarize_text url text question driver;
  links ← scrape_links_with_selenium driver url;
  let links := limit_links links in
  close_browser driver;;
  mret (answer summary_text links, driver).

Definition open_website_in_browser (url question : str) : M (str * handle) :=
  driver ← create_driver;
  perform (Get driver url);;
  wait_for_body driver;;
  mret (py "Website is now open using the selenium webdriver", driver).

Definition identify_form_field (driver : handle) : M pyval :=
  body ← perform (FindElement driver By_XPATH (Some (py "/html/body")));
  body_text ← perform (ElementText body);
  mret (VTuple [VStr (py "Current valid html"); VStr body_text]).

Definition enter_text_into_form_field (driver : handle) (field_name text : str)
  : M pyval :=
  body ← perform (FindElement driver By_XPATH (Some (py "/html/body")));
  body_text ← perform (ElementText body);
  field ← perform (FindElement driver field_name None);
  perform (ElementSendkeys field text);;
  mret (VTuple [VStr (py "Current valid html"); VStr body_text]).

Definition element_texts (l : list element) : M (list pyval) :=
  for_each (fun e => t ← perform (ElementText e); mret (VStr t)) l.

Definition get_updated_html_context (driver : handle) : M pyval :=
  buttons ← perform (FindElements driver By_XPATH (py "//button"));
  button_text ← element_texts buttons;
  inputs ← perform (FindElements driver By_XPATH
                      (py "//input[@type='text' or @type='password']"));
  input_text ← element_texts inputs;
  body ← perform (FindElements driver By_XPATH (py "/html/body"));
  body_text ← element_texts body;
  mret (VDict [(py "body_text", VList body_text);
               (py "buttons", VList button_text);
               (py "inputs", VList input_text)]).

Definition navigate_by_click_button (driver : handle) (button_text : str)
  : M pyval :=
  try_except
    (button ← perform (FindElement driver button_text None);
     perform (ElementClick button);;
     wait_for_body driver;;
     context ← get_updated_html_context driver;
     mret (VTuple [VStr (py "Current valid website context"); context]))
    (mret (VStr (py "Error: That button doesn't exist, please identify the correct button first"))).

Definition get_updated_html (driver : handle) : M pyval :=
  try_except
    (context ← get_updated_html_context driver;
     mret (VTuple [VStr (py "Current valid website context"); context]))
    (mret (VStr (py "Error: Can't seem to get html, please stop doing QA and get some help"))).

Definition find_button_name (driver : handle) : M pyval :=
  try_except
    (context ← get_updated_html_context driver;
     mret (VTuple [VStr (py "Current valid website context"); context]))
    (mret (VStr (py "Error: That button doesn't exist, please identify the correct button first"))).

(** [l.text] for a list [l]: a list has no such attribute. *)
Definition list_text (l : list element) : M pyval :=
  raise (AttributeError (py "text")).

Definition click_button (driver : handle) : M pyval :=
  try_except
    (l ← perform (FindElements driver By_XPATH (py "//button"));
     buttons ← list_text l;
     l ← perform (FindElements driver By_XPATH
                    (py "//input[@type='text' or @type='password']"));
     inputs ← list_text l;
     l ← perform (FindElements driver By_XPATH (py "/html/body"));
     body_text ← list_text l;
     mret (VTuple [VStr (py "Current valid website context");
                   VDict [(py "body_text", body_text);
                          (py "buttons", buttons);
                          (py "inputs", inputs)]]))
    (mret (VStr (py "Error: That button doesn't exist, please identify the correct button first"))).

End WebSelenium.


(** ** The text extractor as the specification words it

    Section 4.1 of the specification: remove all script and style
    elements from the parsed document tree; extract the remaining
    visible text; split on line breaks, strip each line, split further
    on double-space sequences, strip each resulting fragment, discard
    the empty fragments and join the survivors with single newlines. *)

Module Spec.

Definition is_script_or_style (n : Bs4.node) : bool :=
  match n with
  | Bs4.Tag name _ _ =>
      bool_decide (name = py "script") || bool_decide (name = py "style")
  | Bs4.NavigableString _ | Bs4.Comment _ => false
  end.

Definition keep (n : Bs4.node) : bool := negb (is_script_or_style n).

(** A node without the script and style elements below it. *)
Fixpoint prune (n : Bs4.node) : Bs4.node :=
  match n with
  | Bs4.Tag name attrs children =>
      Bs4.Tag name attrs (List.filter keep (map prune children))
  | Bs4.NavigableString _ | Bs4.Comment _ => n
  end.

Definition remove_script_style (doc : Bs4.soup) : Bs4.soup :=
  List.filter keep (map prune doc).

Definition is_empty (s : str) : bool := bool_decide (s = []).

Definition text_extractor (doc : Bs4.soup) : str :=
  let visible := Bs4.get_text (remove_script_style doc) in
  let lines := splitlines visible in
  let stripped_lines := map strip lines in
  let fragments := concat (map split_double_space stripped_lines) in
  let stripped_fragments := map strip fragments in
  let survivors := List.filter (fun f => negb (is_empty f)) stripped_fragments in
  join [LF] survivors.

End Spec.

(** ** Static pages and browsers to run the module against *)

Module Fixture.

Definition tag (name : string) (attrs : list (string * string))
    (children : list Bs4.node) : Bs4.node :=
  Bs4.Tag (py name)
          (list_to_map (map (fun kv => (py (fst kv), py (snd kv))) attrs))
          children.

Definition text (s : string) : Bs4.node := Bs4.NavigableString (py s).

(** A page with text in columns, two anchors and a script. *)
Definition about_markup : str :=
  py "<body><h1>Example  Domain</h1><p>  More   information </p><a href='/about'>About</a><a name='top'>Top</a><script>var x = 1;</script></body>".

Definition about_doc : Bs4.soup :=
  [tag "body" []
     [tag "h1" [] [text "Example  Domain"];
      tag "p" [] [text "  More   information "];
      tag "a" [("href", "/about")] [text "About"];
      tag "a" [("name", "top")] [text "Top"];
      tag "script" [] [text "var x = 1;"]]]%string.

(** A page that holds nothing but a script and a style sheet. *)
Definition script_only_markup : str :=
  py "<script>alert(1)</script><style>p { color: red }</style>".

Definition script_only_doc : Bs4.soup :=
  [tag "script" [] [text "alert(1)"];
   tag "style" [] [text "p { color: red }"]]%string.

(** A page with twelve anchors. *)
Definition twelve_names : list string :=
  ["a"; "b"; "c"; "d"; "e"; "f"; "g"; "h"; "i"; "j"; "k"; "l"]%string.

Definition twelve_markup : str :=
  flat_map (fun n => py "<a href='/" ++ py n ++ py "'>" ++ py n ++ py "</a>")
           twelve_names.

Definition twelve_doc : Bs4.soup :=
  map (fun n => tag "a" [("href", String "/" n)] [text n])%string twelve_names.

(** The parser on these pages; anything else is taken as plain text. *)
Definition pages : gmap str Bs4.soup :=
  <[about_markup := about_doc]>
    (<[script_only_markup := script_only_doc]>
       (<[twelve_markup := twelve_doc]> ∅)).

Definition html_parser (markup : str) : Bs4.soup :=
  default [Bs4.NavigableString markup] (pages !! markup).

(** [repr] on strings without quotes, backslashes or control
    characters. *)
Definition quote (s : str) : str := py "'" ++ s ++ py "'".

(** A browser in which every call succeeds and which shows [page]; the
    summarizer hands the text back. *)
Definition browser (page : str) (A : Type) (c : call A) (w : world)
  : result A :=
  match c in call T return result T with
  | OptionsInit _ => Ok tt
  | AddExperimentalOption _ _ _ => Ok tt
  | AddArgument _ _ => Ok tt
  | Install ChromeDriverManager => Ok (py "/usr/bin/chromedriver")
  | Install GeckoDriverManager => Ok (py "/usr/bin/geckodriver")
  | Start _ _ _ => Ok tt
  | Get _ _ => Ok tt
  | WaitUntilPresent _ _ _ _ => Ok tt
  | ExecuteScript _ _ => Ok page
  | PageSource _ => Ok page
  | FindElement _ _ _ => Ok 0
  | FindElements _ _ _ => Ok [1; 2]
  | ElementText _ => Ok (py "Submit")
  | ElementClick _ => Ok tt
  | ElementSendkeys _ _ => Ok tt
  | Quit _ => Ok tt
  | ReadFile _ => Ok (py "/* overlay */")
  | SummarizeText _ text _ _ => Ok text
  end.

(** The same browser on a page that has a body and nothing else: the
    lookup of a single button or field finds nothing and raises, the
    lookup of all buttons or inputs gives the empty list. *)
Definition browser_without_elements (page : str) (A : Type) (c : call A)
    (w : world) : result A :=
  match c in call T return result T with
  | FindElement _ _ None => Raise NoSuchElementException
  | FindElements _ _ _ => Ok []
  | c' => browser page _ c' w
  end.

(** A browser that has gone away: whatever is asked of a driver or of an
    element raises. *)
Definition browser_gone (page : str) (A : Type) (c : call A) (w : world)
  : result A :=
  match c in call T return result T with
  | Get _ _ => Raise WebDriverException
  | WaitUntilPresent _ _ _ _ => Raise TimeoutException
  | ExecuteScript _ _ => Raise WebDriverException
  | PageSource _ => Raise WebDriverException
  | FindElement _ _ _ => Raise WebDriverException
  | FindElements _ _ _ => Raise WebDriverException
  | ElementText _ => Raise WebDriverException
  | ElementClick _ => Raise WebDriverException
  | ElementSendkeys _ _ => Raise WebDriverException
  | Quit _ => Raise WebDriverException
  | c' => browser page _ c' w
  end.

Definition env_of (o : forall A, call A -> world -> result A)
    (browser_name : string) : Env :=
  {| oracle := o;
     BeautifulSoup := html_parser;
     repr := quote;
     CFG := {| selenium_web_browser := py browser_name;
               selenium_headless := true |};
     platform := py "linux";
     FILE_DIR := py "/app/autogpt" |}.

(** The world before any browser was started. *)
Definition fresh : world := {| running := []; started := 0; history := [] |}.

End Fixture.
(** ** Predicates used in the statements *)

(** A string holds no line boundary. *)
Definition one_line (s : str) : Prop :=
  Forall (fun c => is_linebreak c = false) s.

(** Two spaces in a row somewhere in the string. *)
Fixpoint has_double_space (s : str) : bool :=
  match s with
  | [] => false
  | c :: s' =>
      match s' with
      | [] => false
      | d :: _ => ((c =? SP) && (d =? SP))%N || has_double_space s'
      end
  end.

(** What a chunk of the clean text looks like. *)
Definition clean_chunk (c : str) : Prop :=
  c <> [] /\ one_line c /\ has_double_space c = false /\ strip c = c.


(** The document holds nothing but script and style elements. *)
Definition only_script_style (doc : Bs4.soup) : Prop :=
  forallb Spec.is_script_or_style doc = true.

(** Nothing visible is left once the script and style elements are
    gone. *)
Definition no_visible_text (doc : Bs4.soup) : Prop :=
  Bs4.get_text (Bs4.extract_all [py "script"; py "style"] doc) = [].

(** A string of white space only. *)
Definition blank (s : str) : Prop := Forall (fun c => is_space c = true) s.

(** What is left once the script and style elements are gone is white
    space, as the line breaks between the tags of a page are. *)
Definition blank_visible_text (doc : Bs4.soup) : Prop :=
  blank (Bs4.get_text (Bs4.extract_all [py "script"; py "style"] doc)).

(** The three calls with which [scrape_text_with_selenium] fetches the
    page succeed from [w] and the browser hands back [page_source]. *)
Definition fetched (env : Env) (url : str) (driver : handle) (w : world)
    (page_source : str) : Prop :=
  let c1 := Get driver url in
  let c2 := WaitUntilPresent driver 10 By_TAG_NAME (py "body") in
  let c3 := ExecuteScript driver (py "return document.body.outerHTML;") in
  oracle env _ c1 w = Ok tt
  /\ oracle env _ c2 (log c1 w) = Ok tt
  /\ oracle env _ c3 (log c2 (log c1 w)) = Ok page_source.

(** The same browser processes run in both worlds and as many were
    started. *)
Definition same_processes (w w' : world) : Prop :=
  running w' = running w /\ started w' = started w.

(** A computation that neither starts nor ends a browser process. *)
Definition quiet {A} (m : M A) : Prop :=
  forall w, same_processes w (snd (m w)).

(** A routine that starts a browser process of its own when it is called
    and has ended that process when it returns. *)
Definition acquires_and_releases
    (routine : Env -> str -> str -> M (str * handle)) : Prop :=
  forall env url question w r w',
    routine env url question w = (Ok r, w') ->
    snd r = started w
    /\ started w' = S (started w)
    /\ ~ In (snd r) (running w').

(** A routine that starts a browser process of its own and returns with
    that process running. *)
Definition acquires_and_keeps
    (routine : Env -> str -> str -> M (str * handle)) : Prop :=
  forall env url question w r w',
    routine env url question w = (Ok r, w') ->
    snd r = started w
    /\ started w' = S (started w)
    /\ running w' = snd r :: running w.

(** The result of a helper built as [try: return msg, body() except:
    return err]: the pair when the body ran through, the bare string
    when it raised; the helper itself raises nothing. *)
Definition pair_or_string (helper body : M pyval) (msg err : str) : Prop :=
  forall w,
    (exists context w',
        body w = (Ok context, w')
        /\ helper w = (Ok (VTuple [VStr msg; context]), w'))
    \/ (exists e w',
           body w = (Raise e, w')
           /\ helper w = (Ok (VStr err), w')).

(** A computation that, when it returns, has started exactly one browser
    process and returns the driver of that process. *)
Definition starts_one (m : M handle) : Prop :=
  forall w d w',
    m w = (Ok d, w') ->
    d = started w /\ started w' = S (started w) /\ running w' = d :: running w.

(** The characters of a string that are no white space, in their
    order. *)
Definition ink (s : str) : str :=
  List.filter (fun c => negb (is_space c)) s.

(** A computation that starts one browser process when it returns, as
    [starts_one] says, and none when it raises. *)
Definition launches (m : M handle) : Prop :=
  forall w,
    match m w with
    | (Ok d, w') =>
        d = started w /\ started w' = S (started w)
        /\ running w' = d :: running w
    | (Raise _, w') => same_processes w w'
    end.

(** A computation that, when it raises, has neither started nor ended a
    browser process. *)
Definition quiet_on_error {A} (m : M A) : Prop :=
  forall w e w', m w = (Raise e, w') -> same_processes w w'.

(** A routine that, when it raises, either has not started a browser
    process or has left the one it started running. *)
Definition leaves_browser_on_error
    (routine : Env -> str -> str -> M (str * handle)) : Prop :=
  forall env url question w e w',
    routine env url question w = (Raise e, w') ->
    same_processes w w'
    \/ (started w' = S (started w) /\ running w' = started w :: running w).

(** An outside world in which no call raises. *)
Definition reliable (env : Env) : Prop :=
  forall A (c : call A) w, exists a, oracle env A c w = Ok a.

(** A computation that returns from every world. *)
Definition succeeds {A} (m : M A) : Prop :=
  forall w, exists a w', m w = (Ok a, w').

(** The environment with another value of [CFG.selenium_headless]. *)
Definition with_headless (headless : bool) (env : Env) : Env :=
  {| oracle := oracle env;
     BeautifulSoup := BeautifulSoup env;
     repr := repr env;
     CFG := {| selenium_web_browser := selenium_web_browser (CFG env);
               selenium_headless := headless |};
     platform := platform env;
     FILE_DIR := FILE_DIR env |}.




(** A tag with one of the names is in the tree of the node, the node
    itself included. *)
Fixpoint has_tag (names : list str) (n : Bs4.node) : bool :=
  match n with
  | Bs4.Tag name _ children =>
      bool_decide (name ∈ names) || existsb (has_tag names) children
  | Bs4.NavigableString _ | Bs4.Comment _ => false
  end.

(** A browser in which the page loads but the body never shows up: the
    wait runs out. *)
Definition browser_timeout (page : str) (A : Type) (c : call A) (w : world)
  : result A :=
  match c in call T return result T with
  | WaitUntilPresent _ _ _ _ => Raise TimeoutException
  | c' => Fixture.browser page _ c' w
  end.
(** * Properties of the string operations *)

Section StringFacts.

Lemma list_ind2 {A} (P : list A -> Prop) :
  P [] -> (forall a, P [a]) ->
  (forall a b l, P l -> P (b :: l) -> P (a :: b :: l)) ->
  forall l, P l.
Proof.
  intros Hnil Hone Hstep l.
  assert (H : P l /\ forall a, P (a :: l)).
  { induction l as [|b l [IH1 IH2]]; split; auto. }
  exact (proj1 H).
Qed.

Lemma splitlines_LF rest : splitlines (LF :: rest) = [] :: splitlines rest.
Proof. destruct rest; reflexivity. Qed.

Lemma splitlines_one_line s : Forall one_line (splitlines s).
Proof.
  induction s as [| a | a b l IHl IHbl] using list_ind2.
  - constructor.
  - simpl. destruct (is_linebreak a) eqn:Ha; repeat constructor. exact Ha.
  - change (splitlines (a :: b :: l)) with
      (if is_linebreak a
       then if ((a =? CR) && (b =? LF))%N
            then [] :: splitlines l else [] :: splitlines (b :: l)
       else push_front a (splitlines (b :: l))).
    destruct (is_linebreak a) eqn:Ha.
    + destruct ((a =? CR) && (b =? LF))%N; constructor; auto; constructor.
    + destruct (splitlines (b :: l)) as [|p ps]; simpl.
      * repeat constructor. exact Ha.
      * inversion IHbl; subst. constructor; auto. constructor; auto.
Qed.

Lemma splitlines_cons c s :
  is_linebreak c = false ->
  splitlines (c :: s) = push_front c (splitlines s).
Proof. intros H. destruct s; simpl; rewrite H; reflexivity. Qed.

Lemma splitlines_chunk_cons c rest :
  c <> [] -> one_line c ->
  splitlines (c ++ LF :: rest) = c :: splitlines rest.
Proof.
  induction c as [|x c IH]; intros Hne Hc; [congruence|].
  inversion Hc as [|? ? Hx Hc']; subst.
  rewrite <- app_comm_cons, splitlines_cons by exact Hx.
  destruct c as [|y c].
  - simpl app. rewrite splitlines_LF. reflexivity.
  - rewrite IH by (auto; congruence). reflexivity.
Qed.

Lemma splitlines_chunk c : c <> [] -> one_line c -> splitlines c = [c].
Proof.
  induction c as [|x c IH]; intros Hne Hc; [congruence|].
  inversion Hc as [|? ? Hx Hc']; subst.
  rewrite splitlines_cons by exact Hx.
  destruct c as [|y c]; [reflexivity|].
  rewrite IH by (auto; congruence). reflexivity.
Qed.

Lemma splitlines_join chunks :
  Forall (fun c => c <> [] /\ one_line c) chunks ->
  splitlines (join [LF] chunks) = chunks.
Proof.
  induction chunks as [|c rest IH]; intros H; [reflexivity|].
  inversion H as [|? ? [Hne Hc] Hrest]; subst.
  destruct rest as [|c' rest].
  - simpl. apply splitlines_chunk; auto.
  - change (join [LF] (c :: c' :: rest)) with (c ++ LF :: join [LF] (c' :: rest)).
    rewrite splitlines_chunk_cons by auto. rewrite IH by auto. reflexivity.
Qed.

Lemma split_cons2 c d s :
  split_double_space (c :: d :: s)
  = if ((c =? SP) && (d =? SP))%N then [] :: split_double_space s
    else push_front c (split_double_space (d :: s)).
Proof. reflexivity. Qed.

Lemma has_double_space_cons2 c d s :
  has_double_space (c :: d :: s)
  = ((c =? SP) && (d =? SP))%N || has_double_space (d :: s).
Proof. reflexivity. Qed.

Lemma has_double_space_tail c s :
  has_double_space (c :: s) = false -> has_double_space s = false.
Proof.
  destruct s as [|d s]; [reflexivity|].
  rewrite has_double_space_cons2. intros H. apply orb_false_elim in H. apply H.
Qed.

Lemma split_no_double_space s :
  has_double_space s = false -> split_double_space s = [s].
Proof.
  induction s as [|c s IH]; [reflexivity|].
  destruct s as [|d s]; [reflexivity|]. intros H.
  pose proof (has_double_space_tail _ _ H) as Ht.
  rewrite has_double_space_cons2 in H. apply orb_false_elim in H as [Hcd _].
  rewrite split_cons2, Hcd, IH by exact Ht. reflexivity.
Qed.

(** The first piece of a split is empty or starts as the string does. *)
Lemma split_head s :
  exists p ps, split_double_space s = p :: ps
               /\ (p = [] \/ exists x r p', s = x :: r /\ p = x :: p').
Proof.
  destruct s as [|c s]; [exists [], []; auto|].
  destruct s as [|d s].
  { exists [c], []. split; [reflexivity|]. right. exists c, [], []. auto. }
  rewrite split_cons2. destruct ((c =? SP) && (d =? SP))%N.
  - exists [], (split_double_space s). auto.
  - destruct (split_double_space (d :: s)) as [|p ps]; simpl.
    + exists [c], []. split; [reflexivity|]. right. exists c, (d :: s), []. auto.
    + exists (c :: p), ps. split; [reflexivity|]. right.
      exists c, (d :: s), p. auto.
Qed.

Lemma split_pieces_no_double_space s :
  Forall (fun p => has_double_space p = false) (split_double_space s).
Proof.
  induction s as [| a | a b l IHl IHbl] using list_ind2.
  - repeat constructor.
  - repeat constructor.
  - rewrite split_cons2. destruct ((a =? SP) && (b =? SP))%N eqn:Hab.
    + constructor; auto.
    + destruct (split_head (b :: l)) as (p & ps & Hs & Hp).
      rewrite Hs in IHbl |- *. inversion IHbl as [|? ? Hp' Hps]; subst.
      simpl. constructor; auto.
      destruct Hp as [-> | (x & r & p' & Hx & ->)]; [reflexivity|].
      injection Hx as <- <-.
      rewrite has_double_space_cons2, Hab. exact Hp'.
Qed.

Lemma push_front_Forall (P : str -> Prop) c ps :
  (forall p, P p -> P (c :: p)) -> P [c] -> Forall P ps ->
  Forall P (push_front c ps).
Proof.
  intros Hc H1 H. destruct H; simpl; repeat constructor; auto.
Qed.

Lemma split_pieces_one_line s :
  one_line s -> Forall one_line (split_double_space s).
Proof.
  induction s as [| a | a b l IHl IHbl] using list_ind2; intros H.
  - repeat constructor.
  - repeat constructor. inversion H; auto.
  - inversion H as [|? ? Ha Hbl]; subst. inversion Hbl as [|? ? Hb Hl]; subst.
    rewrite split_cons2. destruct ((a =? SP) && (b =? SP))%N.
    + constructor; [constructor | auto].
    + apply push_front_Forall; auto.
      * intros p Hp. constructor; auto.
      * repeat constructor. exact Ha.
Qed.

(** [lstrip] keeps a suffix, [rstrip] a prefix. *)
Lemma lstrip_Forall (P : char -> Prop) s : Forall P s -> Forall P (lstrip s).
Proof.
  induction 1 as [|c s Hc Hs IH]; simpl; [constructor|].
  destruct (is_space c); auto.
Qed.

Lemma rstrip_Forall (P : char -> Prop) s : Forall P s -> Forall P (rstrip s).
Proof.
  induction 1 as [|c s Hc Hs IH]; simpl; [constructor|].
  destruct (rstrip s).
  - destruct (is_space c); repeat constructor; auto.
  - constructor; auto.
Qed.

(** The lines of a string are made of its characters. *)
Lemma splitlines_Forall (P : char -> Prop) s :
  Forall P s -> Forall (Forall P) (splitlines s).
Proof.
  induction s as [| a | a b l IHl IHbl] using list_ind2; intros H.
  - constructor.
  - inversion H; subst. simpl.
    destruct (is_linebreak a); repeat constructor; auto.
  - inversion H as [|? ? Ha Hbl]; subst. inversion Hbl as [|? ? Hb Hl]; subst.
    change (splitlines (a :: b :: l)) with
      (if is_linebreak a
       then if ((a =? CR) && (b =? LF))%N
            then [] :: splitlines l else [] :: splitlines (b :: l)
       else push_front a (splitlines (b :: l))).
    destruct (is_linebreak a).
    + destruct ((a =? CR) && (b =? LF))%N; constructor; auto; constructor.
    + apply push_front_Forall; [intros p Hp; constructor; auto | | auto].
      repeat constructor. exact Ha.
Qed.

Lemma lstrip_blank s : blank s -> lstrip s = [].
Proof.
  induction 1 as [|c s Hc Hs IH]; simpl; [reflexivity|].
  rewrite Hc. exact IH.
Qed.

Lemma strip_blank s : blank s -> strip s = [].
Proof. intros H. unfold strip. rewrite (lstrip_blank _ H). reflexivity. Qed.

Lemma strip_one_line s : one_line s -> one_line (strip s).
Proof. intros H. apply rstrip_Forall, lstrip_Forall, H. Qed.

Lemma lstrip_no_double_space s :
  has_double_space s = false -> has_double_space (lstrip s) = false.
Proof.
  induction s as [|c s IH]; intros H; simpl; [reflexivity|].
  destruct (is_space c); [|exact H].
  apply IH. eapply has_double_space_tail, H.
Qed.

Lemma rstrip_head s y r : rstrip s = y :: r -> exists t, s = y :: t.
Proof.
  destruct s as [|c s]; simpl; [discriminate|].
  destruct (rstrip s); [destruct (is_space c)|]; intros H;
    try discriminate; injection H as <- _; eauto.
Qed.

Lemma rstrip_no_double_space s :
  has_double_space s = false -> has_double_space (rstrip s) = false.
Proof.
  induction s as [|c s IH]; intros H; simpl; [reflexivity|].
  pose proof (IH (has_double_space_tail _ _ H)) as IH'.
  destruct (rstrip s) as [|y r] eqn:Hr.
  - destruct (is_space c); reflexivity.
  - destruct (rstrip_head _ _ _ Hr) as [t ->].
    rewrite has_double_space_cons2 in H |- *.
    apply orb_false_elim in H as [-> _]. exact IH'.
Qed.

Lemma strip_no_double_space s :
  has_double_space s = false -> has_double_space (strip s) = false.
Proof. intros H. apply rstrip_no_double_space, lstrip_no_double_space, H. Qed.

Lemma lstrip_head s :
  lstrip s = [] \/ exists x r, lstrip s = x :: r /\ is_space x = false.
Proof.
  induction s as [|c s IH]; simpl; [auto|].
  destruct (is_space c) eqn:Hc; eauto.
Qed.

Lemma rstrip_idempotent s : rstrip (rstrip s) = rstrip s.
Proof.
  induction s as [|c s IH]; simpl; [reflexivity|].
  destruct (rstrip s) as [|y r] eqn:Hr.
  - destruct (is_space c) eqn:Hc; simpl; [|rewrite Hc]; reflexivity.
  - change (rstrip (c :: y :: r)) with
      (match rstrip (y :: r) with
       | [] => if is_space c then [] else [c]
       | r' => c :: r'
       end).
    rewrite IH. reflexivity.
Qed.

Lemma lstrip_rstrip x r :
  is_space x = false -> lstrip (rstrip (x :: r)) = rstrip (x :: r).
Proof.
  intros Hx. simpl.
  destruct (rstrip r); [rewrite Hx|]; simpl; rewrite Hx; reflexivity.
Qed.

Lemma strip_idempotent s : strip (strip s) = strip s.
Proof.
  unfold strip. destruct (lstrip_head s) as [-> | (x & r & -> & Hx)].
  - reflexivity.
  - rewrite lstrip_rstrip by exact Hx. apply rstrip_idempotent.
Qed.

End StringFacts.

(** * The text extractor *)

Section TextExtractor.

Lemma node_ind' (P : Bs4.node -> Prop) :
  (forall name attrs children,
      Forall P children -> P (Bs4.Tag name attrs children)) ->
  (forall s, P (Bs4.NavigableString s)) ->
  (forall s, P (Bs4.Comment s)) ->
  forall n, P n.
Proof.
  intros HT HS HC. fix IH 1.
  intros [name attrs children | s | s]; [|apply HS|apply HC].
  apply HT. induction children as [|c cs IHcs]; constructor.
  - apply IH.
  - exact IHcs.
Qed.

Lemma script_or_style_names (name : str) :
  bool_decide (name ∈ [py "script"; py "style"])
  = Spec.is_script_or_style (Bs4.Tag name ∅ []).
Proof.
  unfold Spec.is_script_or_style. rewrite <- bool_decide_or.
  apply bool_decide_ext. rewrite !elem_of_cons, elem_of_nil. tauto.
Qed.

Lemma keep_prune n : Spec.keep (Spec.prune n) = Spec.keep n.
Proof. destruct n; reflexivity. Qed.

Lemma extract_node_prune n :
  Bs4.extract_node [py "script"; py "style"] n
  = List.filter Spec.keep [Spec.prune n].
Proof.
  induction n as [name attrs children IH | s | s] using node_ind';
    [|reflexivity..].
  cbn [Bs4.extract_node List.filter]. rewrite keep_prune.
  rewrite script_or_style_names.
  change (Spec.keep (Bs4.Tag name attrs children))
    with (negb (Spec.is_script_or_style (Bs4.Tag name ∅ []))).
  destruct (Spec.is_script_or_style (Bs4.Tag name ∅ [])); [reflexivity|].
  cbn [negb Spec.prune]. do 2 f_equal.
  induction IH as [|c cs Hc _ IHcs]; [reflexivity|].
  cbn [flat_map map List.filter]. rewrite Hc, IHcs.
  cbn [List.filter]. destruct (Spec.keep (Spec.prune c)); reflexivity.
Qed.

(** The loop over the script and style tags removes what the
    specification asks to remove. *)
Lemma extract_all_spec doc :
  Bs4.extract_all [py "script"; py "style"] doc = Spec.remove_script_style doc.
Proof.
  unfold Bs4.extract_all, Spec.remove_script_style.
  induction doc as [|n doc IH]; [reflexivity|].
  cbn [flat_map map List.filter]. rewrite extract_node_prune, IH.
  cbn [List.filter]. destruct (Spec.keep (Spec.prune n)); reflexivity.
Qed.

Lemma truthy_nonempty (s : str) : truthy s = true <-> s <> [].
Proof. destruct s; simpl; split; congruence. Qed.

(** Every chunk that passes the filter is clean. *)
Lemma text_chunks_clean text : Forall clean_chunk (text_chunks text).
Proof.
  unfold text_chunks. apply List.Forall_forall. intros c Hc.
  apply List.filter_In in Hc as [Hc Hne].
  apply List.in_flat_map in Hc as (line & Hline & Hc).
  apply List.in_map_iff in Hc as (piece & <- & Hpiece).
  apply List.in_map_iff in Hline as (raw & <- & Hraw).
  assert (Hone : one_line (strip raw)).
  { apply strip_one_line.
    pose proof (splitlines_one_line text) as H.
    rewrite List.Forall_forall in H. auto. }
  repeat split.
  - apply truthy_nonempty, Hne.
  - apply strip_one_line.
    pose proof (split_pieces_one_line _ Hone) as H.
    rewrite List.Forall_forall in H. auto.
  - apply strip_no_double_space.
    pose proof (split_pieces_no_double_space (strip raw)) as H.
    rewrite List.Forall_forall in H. auto.
  - apply strip_idempotent.
Qed.

(** Clean chunks come back unchanged from their join. *)
Lemma text_chunks_join cs :
  Forall clean_chunk cs -> text_chunks (join [LF] cs) = cs.
Proof.
  intros H. unfold text_chunks. rewrite splitlines_join.
  2:{ eapply List.Forall_impl; [|exact H]. intros c (? & ? & _). auto. }
  induction H as [|c cs (Hne & Hone & Hdbl & Hstrip) _ IH]; [reflexivity|].
  cbn [map flat_map]. rewrite Hstrip, split_no_double_space by exact Hdbl.
  cbn [map app List.filter]. rewrite Hstrip, IH.
  apply truthy_nonempty in Hne. rewrite Hne. reflexivity.
Qed.

Lemma truthy_is_empty (f : str) : truthy f = negb (Spec.is_empty f).
Proof. destruct f; reflexivity. Qed.

(** C1: for every raw markup string the text extractor, that is what
    [scrape_text_with_selenium] does once the page is fetched, gives
    exactly the text the specification describes: script and style
    elements removed, the visible text split on line breaks, each line
    stripped and split on double spaces, each fragment stripped, the
    empty fragments dropped and the others joined with single newlines.
    The text has no empty line. *)
Theorem text_of_page_spec (env : Env) (page_source : str) :
  text_of_page env page_source
  = Spec.text_extractor (BeautifulSoup env page_source)
  /\ Forall (fun line => line <> []) (splitlines (text_of_page env page_source)).
Proof.
  unfold text_of_page, normalize_whitespace. split.
  - unfold Spec.text_extractor, text_chunks. rewrite extract_all_spec.
    cbv zeta. f_equal.
    rewrite List.flat_map_concat_map, List.concat_map, !List.map_map.
    apply List.filter_ext. intros f. apply truthy_is_empty.
  - set (text := Bs4.get_text _).
    pose proof (text_chunks_clean text) as H.
    rewrite splitlines_join.
    + eapply List.Forall_impl; [|exact H]. intros c (? & _). auto.
    + eapply List.Forall_impl; [|exact H]. intros c (? & ? & _). auto.
Qed.

(** C9: the whitespace normalization of the text extractor is
    idempotent: applied to its own output it returns that output, for
    every input string. *)
Theorem normalize_whitespace_idempotent (text : str) :
  normalize_whitespace (normalize_whitespace text) = normalize_whitespace text.
Proof.
  unfold normalize_whitespace.
  rewrite text_chunks_join by apply text_chunks_clean. reflexivity.
Qed.

Lemma only_script_style_extract doc :
  only_script_style doc ->
  Bs4.extract_all [py "script"; py "style"] doc = [].
Proof.
  unfold only_script_style. rewrite extract_all_spec.
  unfold Spec.remove_script_style.
  induction doc as [|n doc IH]; [reflexivity|].
  cbn [forallb map List.filter]. intros H.
  apply andb_prop in H as [Hn Hdoc].
  rewrite keep_prune. unfold Spec.keep at 1. rewrite Hn. auto.
Qed.

(** A text of white space only leaves no chunk. *)
Lemma text_chunks_blank text : blank text -> text_chunks text = [].
Proof.
  intros H. unfold text_chunks.
  pose proof (splitlines_Forall _ _ H) as Hlines.
  induction Hlines as [|line lines Hline _ IH]; [reflexivity|].
  cbn [map flat_map]. rewrite (strip_blank _ Hline).
  cbn [split_double_space map strip lstrip rstrip app List.filter truthy].
  exact IH.
Qed.

Lemma scrape_text_with_selenium_ok env url driver w page_source :
  fetched env url driver w page_source ->
  fst (scrape_text_with_selenium env url driver w)
  = Ok (driver, text_of_page env page_source).
Proof.
  intros (H1 & H2 & H3).
  unfold scrape_text_with_selenium, wait_for_body, perform.
  cbv [mbind M_bind bind mret M_ret ret].
  rewrite H1, H2, H3. reflexivity.
Qed.

(** C4: markup whose visible content is empty once the script and style
    elements are removed, in particular markup that holds only script
    and style content, gives the empty text; so does markup of which
    only white space is left.  The extraction raises nothing: once the
    page is fetched, [scrape_text_with_selenium] returns normally, with
    the empty text. *)
Theorem empty_page_empty_text (env : Env) (page_source : str) :
  only_script_style (BeautifulSoup env page_source)
  \/ no_visible_text (BeautifulSoup env page_source)
  \/ blank_visible_text (BeautifulSoup env page_source) ->
  text_of_page env page_source = []
  /\ forall url driver w,
      fetched env url driver w page_source ->
      fst (scrape_text_with_selenium env url driver w) = Ok (driver, []).
Proof.
  intros H.
  assert (Htext : text_of_page env page_source = []).
  { unfold text_of_page, normalize_whitespace.
    rewrite text_chunks_blank; [reflexivity|].
    destruct H as [H | [H | H]].
    - rewrite (only_script_style_extract _ H). constructor.
    - unfold no_visible_text in H. rewrite H. constructor.
    - exact H. }
  split; [exact Htext|]. intros url driver w Hf.
  rewrite (scrape_text_with_selenium_ok _ _ _ _ _ Hf), Htext. reflexivity.
Qed.

End TextExtractor.

(** * The link extractor *)

Section LinkExtractor.

Lemma scheme_parse s : Url.scheme (Url.parse s) = fst (Url.split_scheme s).
Proof.
  unfold Url.parse. destruct (Url.split_scheme s) as [sch r1].
  destruct (Url.split_authority r1) as [auth r2].
  destruct (Url.break _ r2) as [p r3].
  destruct (Url.split_query r3) as [q r4]. reflexivity.
Qed.

Lemma scheme_tail_again s a r :
  Url.scheme_tail s = Some (a, r) ->
  forall rest, Url.scheme_tail (a ++ Url.COLON :: rest) = Some (a, rest).
Proof.
  revert a r. induction s as [|c s IH]; intros a r; simpl; [discriminate|].
  destruct (c =? Url.COLON)%N eqn:Hc.
  - intros [= <- <-] rest. reflexivity.
  - destruct (Url.is_scheme_char c) eqn:Hs; [|discriminate].
    destruct (Url.scheme_tail s) as [[a' r']|] eqn:Ht; [|discriminate].
    intros [= <- <-] rest. simpl. rewrite Hc, Hs, (IH _ _ eq_refl). reflexivity.
Qed.

(** A scheme that was read off a URL is read off again wherever it is
    put in front with its colon. *)
Lemma split_scheme_again s sch :
  fst (Url.split_scheme s) = Some sch ->
  forall rest, Url.split_scheme (sch ++ Url.COLON :: rest) = (Some sch, rest).
Proof.
  destruct s as [|c s]; simpl; [discriminate|].
  destruct (Url.is_alpha c) eqn:Hc; [|discriminate].
  destruct (Url.scheme_tail s) as [[a r]|] eqn:Ht; [|discriminate].
  intros [= <-] rest. simpl. rewrite Hc, (scheme_tail_again _ _ _ Ht). reflexivity.
Qed.

Lemma resolve_scheme base ref :
  Url.scheme (Url.resolve base ref)
  = match Url.scheme ref with
    | Some s => Some s
    | None => Url.scheme base
    end.
Proof.
  unfold Url.resolve. destruct (Url.scheme ref); [reflexivity|].
  destruct (Url.authority ref); [reflexivity|].
  destruct (Url.path ref); reflexivity.
Qed.

Lemma unparse_scheme t sch :
  Url.scheme t = Some sch ->
  exists rest, Url.unparse t = sch ++ Url.COLON :: rest.
Proof.
  intros H. unfold Url.unparse. rewrite H. rewrite <- app_assoc.
  eexists. reflexivity.
Qed.

(** Resolution against an absolute base gives an absolute URL. *)
Lemma urljoin_absolute base url :
  Url.is_absolute base = true -> Url.is_absolute (Url.urljoin base url) = true.
Proof.
  unfold Url.is_absolute, Url.urljoin.
  destruct (Url.scheme (Url.parse base)) as [sb|] eqn:Hb; [|discriminate].
  intros _.
  assert (H : exists s sch,
             fst (Url.split_scheme s) = Some sch
             /\ Url.scheme (Url.resolve (Url.parse base) (Url.parse url))
                = Some sch).
  { rewrite resolve_scheme.
    destruct (Url.scheme (Url.parse url)) as [su|] eqn:Hu.
    - exists url, su. rewrite <- scheme_parse. auto.
    - exists base, sb. rewrite <- scheme_parse. auto. }
  destruct H as (s & sch & Hs & Hr).
  destruct (unparse_scheme _ _ Hr) as [rest ->].
  rewrite scheme_parse, (split_scheme_again _ _ Hs). reflexivity.
Qed.

Lemma limit_links_firstn links : limit_links links = firstn 5 links.
Proof.
  unfold limit_links. destruct (5 <? length links) eqn:H; [reflexivity|].
  apply Nat.ltb_ge in H. symmetry. apply firstn_all2. exact H.
Qed.

(** C2: for every page the list of links that is kept has at most five
    entries, and these are the first five links of the page in document
    order; a page with more than five anchors gives exactly five. *)
Theorem link_list_bounded (env : Env) (page_source url : str) :
  let doc :=
    Bs4.extract_all [py "script"; py "style"] (BeautifulSoup env page_source) in
  let anchors := Bs4.find_all (py "a") (py "href") doc in
  let links := links_of_page env page_source url in
  length links = length anchors
  /\ limit_links links = firstn 5 links
  /\ length (limit_links links) = Nat.min 5 (length anchors).
Proof.
  intros doc anchors links.
  assert (Hlen : length links = length anchors).
  { unfold links, links_of_page, Html.format_hyperlinks, Html.extract_hyperlinks.
    cbv zeta. rewrite !length_map. reflexivity. }
  split; [exact Hlen|]. rewrite limit_links_firstn. split; [reflexivity|].
  rewrite length_firstn, Hlen. reflexivity.
Qed.

(** C3: every hyperlink URL that the link extraction produces is
    absolute, for a page whose own URL is: each href is resolved against
    the base URL of the page, and the relative href "/about" on the base
    URL "https://example.com/page" resolves to
    "https://example.com/about". *)
Theorem hyperlinks_absolute (doc : Bs4.soup) (base_url : str) :
  Url.is_absolute base_url = true ->
  map snd (Html.extract_hyperlinks doc base_url)
  = map (fun a => Url.urljoin base_url (Bs4.get_attr (py "href") a))
        (Bs4.find_all (py "a") (py "href") doc)
  /\ Forall (fun h => Url.is_absolute (snd h) = true)
            (Html.extract_hyperlinks doc base_url)
  /\ Url.urljoin (py "https://example.com/page") (py "/about")
     = py "https://example.com/about".
Proof.
  intros Hbase. unfold Html.extract_hyperlinks. split; [|split].
  - rewrite List.map_map. reflexivity.
  - apply List.Forall_forall. intros h Hh.
    apply List.in_map_iff in Hh as (a & <- & _). simpl.
    apply urljoin_absolute, Hbase.
  - vm_compute. reflexivity.
Qed.

End LinkExtractor.

(** * Calls into the outside world *)

Section Effects.

Variable env : Env.

Lemma bind_ok_inv {A B} (m : M A) (k : A -> M B) w b w' :
  bind m k w = (Ok b, w') ->
  exists a w1, m w = (Ok a, w1) /\ k a w1 = (Ok b, w').
Proof.
  unfold bind. destruct (m w) as [[a|e] w1]; [eauto|discriminate].
Qed.

Lemma bind_ok {A B} (m : M A) (k : A -> M B) w a w1 :
  m w = (Ok a, w1) -> bind m k w = k a w1.
Proof. unfold bind. intros ->. reflexivity. Qed.

Lemma bind_raise {A B} (m : M A) (k : A -> M B) w e w1 :
  m w = (Raise e, w1) -> bind m k w = (Raise e, w1).
Proof. unfold bind. intros ->. reflexivity. Qed.

Lemma same_processes_refl w : same_processes w w.
Proof. split; reflexivity. Qed.

Lemma same_processes_trans w1 w2 w3 :
  same_processes w1 w2 -> same_processes w2 w3 -> same_processes w1 w3.
Proof. intros [H1 H2] [H3 H4]. split; congruence. Qed.

Lemma quiet_ret {A} (a : A) : quiet (ret a).
Proof. intros w. apply same_processes_refl. Qed.

Lemma quiet_raise {A} e : quiet (@raise A e).
Proof. intros w. apply same_processes_refl. Qed.

Lemma quiet_perform {A} (c : call A) : quiet (perform env c).
Proof. intros w. split; reflexivity. Qed.

Lemma quiet_bind {A B} (m : M A) (k : A -> M B) :
  quiet m -> (forall a, quiet (k a)) -> quiet (bind m k).
Proof.
  intros Hm Hk w. unfold bind. specialize (Hm w).
  destruct (m w) as [[a|e] w1]; simpl in *; [|exact Hm].
  eapply same_processes_trans; [exact Hm | apply Hk].
Qed.

Lemma quiet_ok {A} (m : M A) w a w' :
  quiet m -> m w = (Ok a, w') -> same_processes w w'.
Proof. intros H Hm. specialize (H w). rewrite Hm in H. exact H. Qed.

End Effects.

Create HintDb quiet.
#[export] Hint Resolve quiet_ret quiet_raise quiet_perform : quiet.

(** Splits a computation into its steps; what is left are the calls. *)
Ltac quiet_steps :=
  repeat first
    [ apply quiet_bind; [|intros ?]
    | apply quiet_perform
    | apply quiet_ret
    | apply quiet_raise
    | match goal with
      | |- quiet (if ?b then _ else _) => destruct b
      | |- quiet (match ?x with _ => _ end) => destruct x
      end ].

Section Routines.

Variable env : Env.

Lemma quiet_new_options cls : quiet (new_options env cls).
Proof. unfold new_options. cbv [mbind M_bind mret M_ret]. quiet_steps. Qed.

Lemma quiet_add_experimental_option o name value :
  quiet (add_experimental_option env o name value).
Proof.
  unfold add_experimental_option. cbv [mbind M_bind mret M_ret]. quiet_steps.
Qed.

Lemma quiet_add_argument o argument : quiet (add_argument env o argument).
Proof. unfold add_argument. cbv [mbind M_bind mret M_ret]. quiet_steps. Qed.

Lemma quiet_scrape_text_with_selenium url driver :
  quiet (scrape_text_with_selenium env url driver).
Proof.
  unfold scrape_text_with_selenium, wait_for_body.
  cbv [mbind M_bind mret M_ret]. quiet_steps.
Qed.

Lemma quiet_add_header driver : quiet (add_header env driver).
Proof. unfold add_header. cbv [mbind M_bind mret M_ret]. quiet_steps. Qed.

Lemma quiet_summarize_text url text question driver :
  quiet (summarize_text env url text question driver).
Proof. unfold summarize_text. quiet_steps. Qed.

Lemma quiet_scrape_links_with_selenium driver url :
  quiet (scrape_links_with_selenium env driver url).
Proof.
  unfold scrape_links_with_selenium. cbv [mbind M_bind mret M_ret].
  quiet_steps.
Qed.

Lemma quiet_getitem {V} (d : gmap str V) k : quiet (getitem d k).
Proof. unfold getitem. quiet_steps. Qed.

#[local] Hint Resolve quiet_getitem quiet_new_options
  quiet_add_experimental_option quiet_add_argument : quiet.

Lemma starts_one_bind {A} (m : M A) (k : A -> M handle) :
  quiet m -> (forall a, starts_one (k a)) -> starts_one (bind m k).
Proof.
  intros Hm Hk w d w' H.
  apply bind_ok_inv in H as (a & w1 & Hs & H).
  apply (quiet_ok _ _ _ _ Hm) in Hs as [Hr Hst].
  apply Hk in H as (Hd & H2 & H3). rewrite Hst, Hr in *. auto.
Qed.

Lemma starts_one_webdriver_start cls executable_path o :
  starts_one (webdriver_start env cls executable_path o).
Proof.
  intros w d w'. unfold webdriver_start.
  destruct (oracle env unit _ w); [|discriminate].
  intros [= <- <-]. simpl. auto.
Qed.

(** [create_driver] starts a new browser process whenever it returns. *)
Lemma starts_one_create_driver : starts_one (create_driver env).
Proof.
  unfold create_driver. cbv [mbind M_bind mret M_ret].
  repeat first
    [ apply starts_one_webdriver_start
    | apply starts_one_bind;
      [ first [ solve [auto with quiet] | quiet_steps; auto with quiet ]
      | intros ? ]
    | match goal with
      | |- starts_one (if ?b then _ else _) => destruct b
      end ].
Qed.

Lemma options_available_unsupported (name : str) :
  name ∉ [py "chrome"; py "safari"; py "firefox"] ->
  options_available !! name = None.
Proof.
  intros H. apply not_elem_of_cons in H as [H1 H].
  apply not_elem_of_cons in H as [H2 H].
  apply not_elem_of_cons in H as [H3 _].
  unfold options_available.
  rewrite !lookup_insert_ne by congruence. apply lookup_empty.
Qed.

(** C7: when the configured browser is none of chrome, safari and
    firefox, [create_driver] fails with the lookup error of the options
    table, and it does so before anything else happens: no call was
    made and no browser process was started. *)
Theorem create_driver_unsupported (w : world) :
  selenium_web_browser (CFG env) ∉ [py "chrome"; py "safari"; py "firefox"] ->
  create_driver env w = (Raise (KeyError (selenium_web_browser (CFG env))), w).
Proof.
  intros H. unfold create_driver. cbv [mbind M_bind bind getitem].
  rewrite (options_available_unsupported _ H). reflexivity.
Qed.

(** C5: when the steps of [browse_website] succeed, it returns the pair
    of the string "Answer gathered from website: {summary} \n \n Links:
    {links}" and of the driver of the browser session; the summary in
    the string is what the summarizer answered, and the links are the
    first five, at most, of the links scraped from the page. *)
Theorem browse_website_answer (url question : str)
    (w w1 w2 w3 w4 w5 w6 : world) (d d' : handle) (text summary : str)
    (links : list str) :
  create_driver env w = (Ok d, w1) ->
  scrape_text_with_selenium env url d w1 = (Ok (d', text), w2) ->
  add_header env d' w2 = (Ok tt, w3) ->
  summarize_text env url text question d' w3 = (Ok summary, w4) ->
  scrape_links_with_selenium env d' url w4 = (Ok links, w5) ->
  close_browser env d' w5 = (Ok tt, w6) ->
  browse_website env url question w
  = (Ok (py "Answer gathered from website: " ++ summary
         ++ [SP; LF; SP; LF] ++ py " Links: "
         ++ py "[" ++ join (py ", ") (map (repr env) (firstn 5 links))
         ++ py "]",
         d'),
     w6).
Proof.
  intros H1 H2 H3 H4 H5 H6. unfold browse_website. cbv [mbind M_bind].
  rewrite (bind_ok _ _ _ _ _ H1), (bind_ok _ _ _ _ _ H2). cbv beta iota.
  rewrite (bind_ok _ _ _ _ _ H3), (bind_ok _ _ _ _ _ H4).
  rewrite (bind_ok _ _ _ _ _ H5). cbv zeta.
  rewrite (bind_ok _ _ _ _ _ H6), limit_links_firstn. reflexivity.
Qed.

Lemma scrape_text_with_selenium_driver url d w d' text w' :
  scrape_text_with_selenium env url d w = (Ok (d', text), w') -> d' = d.
Proof.
  unfold scrape_text_with_selenium. cbv [mbind M_bind mret M_ret]. intros H.
  apply bind_ok_inv in H as (? & ? & _ & H).
  apply bind_ok_inv in H as (? & ? & _ & H).
  apply bind_ok_inv in H as (? & ? & _ & H).
  injection H as <- _ _. reflexivity.
Qed.

Lemma close_browser_ok d w u w' :
  close_browser env d w = (Ok u, w') ->
  started w' = started w /\ ~ In d (running w').
Proof.
  unfold close_browser, driver_quit.
  destruct (oracle env unit (Quit d) w); [|discriminate].
  intros [= _ <-]. simpl. split; [reflexivity|].
  intros Hin. apply List.filter_In in Hin as [_ Hd].
  rewrite Nat.eqb_refl in Hd. discriminate.
Qed.

Lemma browse_website_releases url question w r w' :
  browse_website env url question w = (Ok r, w') ->
  snd r = started w /\ started w' = S (started w) /\ ~ In (snd r) (running w').
Proof.
  unfold browse_website. cbv [mbind M_bind mret M_ret]. intros H.
  apply bind_ok_inv in H as (d & w1 & H1 & H).
  apply starts_one_create_driver in H1 as (Hd & Hs1 & _).
  apply bind_ok_inv in H as ([d' text] & w2 & H2 & H).
  pose proof (scrape_text_with_selenium_driver _ _ _ _ _ _ H2) as ->.
  apply (quiet_ok _ _ _ _ (quiet_scrape_text_with_selenium url d))
    in H2 as [_ Hs2].
  apply bind_ok_inv in H as (? & w3 & H3 & H).
  apply (quiet_ok _ _ _ _ (quiet_add_header d)) in H3 as [_ Hs3].
  apply bind_ok_inv in H as (summary & w4 & H4 & H).
  apply (quiet_ok _ _ _ _ (quiet_summarize_text _ _ _ _)) in H4 as [_ Hs4].
  apply bind_ok_inv in H as (links & w5 & H5 & H).
  apply (quiet_ok _ _ _ _ (quiet_scrape_links_with_selenium _ _))
    in H5 as [_ Hs5].
  cbv zeta in H.
  apply bind_ok_inv in H as (? & w6 & H6 & H).
  apply close_browser_ok in H6 as [Hs6 Hgone].
  injection H as <- <-. simpl. repeat split; [exact Hd | congruence | exact Hgone].
Qed.

Lemma open_website_in_browser_keeps url question w r w' :
  open_website_in_browser env url question w = (Ok r, w') ->
  snd r = started w /\ started w' = S (started w)
  /\ running w' = snd r :: running w.
Proof.
  unfold open_website_in_browser, wait_for_body.
  cbv [mbind M_bind mret M_ret]. intros H.
  apply bind_ok_inv in H as (d & w1 & H1 & H).
  apply starts_one_create_driver in H1 as (Hd & Hs1 & Hr1).
  apply bind_ok_inv in H as (? & w2 & H2 & H).
  apply (quiet_ok _ _ _ _ (quiet_perform env _)) in H2 as [Hr2 Hs2].
  apply bind_ok_inv in H as (? & w3 & H3 & H).
  apply (quiet_ok _ _ _ _ (quiet_perform env _)) in H3 as [Hr3 Hs3].
  injection H as <- <-. simpl. repeat split; congruence.
Qed.

Lemma try_except_pair_or_string (body : M pyval) msg err :
  pair_or_string
    (try_except (bind body (fun context => ret (VTuple [VStr msg; context])))
                (ret (VStr err)))
    body msg err.
Proof.
  intros w. unfold try_except, bind, ret.
  destruct (body w) as [[context|e] w']; [left|right]; eauto.
Qed.

(** [enter_text_into_form_field] has no handler: when the lookup of the
    field raises, so does the helper. *)
Lemma enter_text_into_form_field_propagates driver field_name text w
    body body_text e :
  let c1 := FindElement driver By_XPATH (Some (py "/html/body")) in
  let c2 := ElementText body in
  let c3 := FindElement driver field_name None in
  oracle env _ c1 w = Ok body ->
  oracle env _ c2 (log c1 w) = Ok body_text ->
  oracle env _ c3 (log c2 (log c1 w)) = Raise e ->
  fst (enter_text_into_form_field env driver field_name text w) = Raise e.
Proof.
  intros c1 c2 c3 H1 H2 H3. unfold enter_text_into_form_field, perform.
  cbv [mbind M_bind mret M_ret bind ret]. fold c1. rewrite H1.
  fold c2. rewrite H2. fold c3. rewrite H3. reflexivity.
Qed.

(** [click_button] asks a list for its text, which raises, and the
    handler turns that into the error string: whatever the browser
    answers, the pair is never returned. *)
Lemma click_button_error driver w :
  exists w',
    click_button env driver w
    = (Ok (VStr (py "Error: That button doesn't exist, please identify the correct button first")),
       w').
Proof.
  unfold click_button, try_except, list_text, perform.
  cbv [mbind M_bind mret M_ret bind ret raise].
  destruct (oracle env _ _ w); eauto.
Qed.

End Routines.

(** C8, as far as it holds: [browse_website] starts a browser process
    of its own when it is called and has ended it when it returns;
    [open_website_in_browser] starts one of its own as well, but returns
    with that process running and hands its driver to the caller.  No
    routine takes a running browser over from an earlier call. *)
Theorem browser_process_life_cycle :
  acquires_and_releases browse_website
  /\ acquires_and_keeps open_website_in_browser.
Proof.
  split; intros env url question w r w' H.
  - eapply browse_website_releases, H.
  - eapply open_website_in_browser_keeps, H.
Qed.

(** The helpers [navigate_by_click_button], [get_updated_html],
    [find_button_name] and [click_button] return the pair of the status
    message and the page context when the body of their [try] runs
    through, and a bare error string when it raises and the failure is
    caught; they raise nothing themselves.  In [click_button] the body
    asks a list for its text, which raises, so that every call of it
    ends in the bare error string. *)
Lemma qa_helpers_pair_or_string (env : Env) (driver : handle)
    (button_text : str) :
  pair_or_string
    (navigate_by_click_button env driver button_text)
    (button ← perform env (FindElement driver button_text None);
     perform env (ElementClick button);;
     wait_for_body env driver;;
     get_updated_html_context env driver)
    (py "Current valid website context")
    (py "Error: That button doesn't exist, please identify the correct button first")
  /\ pair_or_string
       (get_updated_html env driver)
       (get_updated_html_context env driver)
       (py "Current valid website context")
       (py "Error: Can't seem to get html, please stop doing QA and get some help")
  /\ pair_or_string
       (find_button_name env driver)
       (get_updated_html_context env driver)
       (py "Current valid website context")
       (py "Error: That button doesn't exist, please identify the correct button first")
  /\ pair_or_string
       (click_button env driver)
       (l ← perform env (FindElements driver By_XPATH (py "//button"));
        buttons ← list_text l;
        l ← perform env (FindElements driver By_XPATH
                           (py "//input[@type='text' or @type='password']"));
        inputs ← list_text l;
        l ← perform env (FindElements driver By_XPATH (py "/html/body"));
        body_text ← list_text l;
        mret (VDict [(py "body_text", body_text);
                     (py "buttons", buttons);
                     (py "inputs", inputs)]))
       (py "Current valid website context")
       (py "Error: That button doesn't exist, please identify the correct button first")
  /\ forall w, exists w',
       click_button env driver w
       = (Ok (VStr (py "Error: That button doesn't exist, please identify the correct button first")),
          w').
Proof.
  split; [|split; [|split; [|split]]].
  - intros w. unfold navigate_by_click_button, try_except, wait_for_body, perform.
    cbv [mbind M_bind mret M_ret bind ret].
    destruct (oracle env _ _ w); [|right; eauto].
    destruct (oracle env _ _ _); [|right; eauto].
    destruct (oracle env _ _ _); [|right; eauto].
    destruct (get_updated_html_context env driver _) as [[context|e] w'];
      [left|right]; eauto.
  - apply try_except_pair_or_string.
  - apply try_except_pair_or_string.
  - intros w. right. unfold click_button, try_except, list_text, perform.
    cbv [mbind M_bind mret M_ret bind ret raise].
    destruct (oracle env _ _ w); eauto.
  - apply click_button_error.
Qed.

(** * More on the clean text *)

Section CleanText.

Lemma linebreak_is_space c : is_linebreak c = true -> is_space c = true.
Proof.
  unfold is_linebreak, is_space.
  rewrite !orb_true_iff, !andb_true_iff, !N.leb_le, !N.eqb_eq. lia.
Qed.

Lemma ink_space c s : is_space c = true -> ink (c :: s) = ink s.
Proof. intros H. unfold ink. simpl. rewrite H. reflexivity. Qed.

Lemma ink_cons c s t : ink s = ink t -> ink (c :: s) = ink (c :: t).
Proof. unfold ink. simpl. intros ->. reflexivity. Qed.

Lemma ink_app a b : ink (a ++ b) = ink a ++ ink b.
Proof. apply List.filter_app. Qed.

Lemma concat_push_front c ps : concat (push_front c ps) = c :: concat ps.
Proof. destruct ps; reflexivity. Qed.

Lemma ink_splitlines s : ink (concat (splitlines s)) = ink s.
Proof.
  induction s as [| a | a b l IHl IHbl] using list_ind2.
  - reflexivity.
  - destruct (is_linebreak a) eqn:Ha.
    + assert (H : splitlines [a] = [[]]) by (simpl; rewrite Ha; reflexivity).
      rewrite H, ink_space by (apply linebreak_is_space, Ha). reflexivity.
    + rewrite splitlines_cons by exact Ha. reflexivity.
  - destruct (is_linebreak a) eqn:Ha.
    + change (splitlines (a :: b :: l)) with
        (if is_linebreak a
         then if ((a =? CR) && (b =? LF))%N
              then [] :: splitlines l else [] :: splitlines (b :: l)
         else push_front a (splitlines (b :: l))).
      rewrite Ha. rewrite (ink_space a) by (apply linebreak_is_space, Ha).
      destruct ((a =? CR) && (b =? LF))%N eqn:Hab.
      * apply andb_prop in Hab as [_ Hb]. apply N.eqb_eq in Hb. subst b.
        rewrite ink_space by reflexivity. exact IHl.
      * exact IHbl.
    + rewrite splitlines_cons by exact Ha. rewrite concat_push_front.
      apply ink_cons, IHbl.
Qed.

Lemma ink_lstrip s : ink (lstrip s) = ink s.
Proof.
  induction s as [|c s IH]; [reflexivity|]. cbn [lstrip].
  destruct (is_space c) eqn:Hc; [|reflexivity].
  rewrite ink_space by exact Hc. exact IH.
Qed.

Lemma ink_rstrip s : ink (rstrip s) = ink s.
Proof.
  induction s as [|c s IH]; [reflexivity|]. cbn [rstrip].
  destruct (rstrip s) as [|y r].
  - destruct (is_space c) eqn:Hc.
    + rewrite ink_space by exact Hc. exact IH.
    + apply (ink_cons c [] s), IH.
  - apply ink_cons, IH.
Qed.

Lemma ink_strip s : ink (strip s) = ink s.
Proof. unfold strip. rewrite ink_rstrip. apply ink_lstrip. Qed.

Lemma ink_split s : ink (concat (split_double_space s)) = ink s.
Proof.
  induction s as [| a | a b l IHl IHbl] using list_ind2.
  - reflexivity.
  - reflexivity.
  - rewrite split_cons2. destruct ((a =? SP) && (b =? SP))%N eqn:Hab.
    + apply andb_prop in Hab as [Ha Hb].
      apply N.eqb_eq in Ha, Hb. subst a b.
      rewrite !ink_space by reflexivity. exact IHl.
    + rewrite concat_push_front. apply ink_cons, IHbl.
Qed.

Lemma ink_join l : ink (join [LF] l) = ink (concat l).
Proof.
  induction l as [|x l IH]; [reflexivity|].
  destruct l as [|y l].
  - simpl. rewrite app_nil_r. reflexivity.
  - change (join [LF] (x :: y :: l)) with (x ++ LF :: join [LF] (y :: l)).
    change (concat (x :: y :: l)) with (x ++ concat (y :: l)).
    rewrite !ink_app, ink_space by reflexivity. rewrite IH. reflexivity.
Qed.

Lemma concat_filter_truthy l : concat (List.filter truthy l) = concat l.
Proof.
  induction l as [|x l IH]; [reflexivity|].
  destruct x; simpl; rewrite IH; reflexivity.
Qed.

Lemma ink_map_strip l : ink (concat (map strip l)) = ink (concat l).
Proof.
  induction l as [|x l IH]; [reflexivity|].
  simpl. rewrite !ink_app, ink_strip, IH. reflexivity.
Qed.

Lemma ink_chunks lines :
  ink (concat (flat_map (fun line => map strip (split_double_space line))
                        (map strip lines)))
  = ink (concat lines).
Proof.
  induction lines as [|line lines IH]; [reflexivity|].
  cbn [map flat_map concat]. rewrite concat_app, !ink_app, IH. f_equal.
  rewrite ink_map_strip, ink_split. apply ink_strip.
Qed.

(** X1: the normalization changes white space only: the characters of
    the text that are no white space are those of the clean text, in
    the same order. *)
Theorem normalize_whitespace_keeps_ink (text : str) :
  ink (normalize_whitespace text) = ink text.
Proof.
  unfold normalize_whitespace, text_chunks.
  rewrite ink_join, concat_filter_truthy, ink_chunks. apply ink_splitlines.
Qed.

(** X2: every line of the clean text is non-empty, holds no line
    boundary and no two spaces in a row, and has no white space at
    either end. *)
Theorem normalize_whitespace_lines_clean (text : str) :
  Forall (fun line =>
            line <> [] /\ one_line line
            /\ has_double_space line = false /\ strip line = line)
         (splitlines (normalize_whitespace text)).
Proof.
  pose proof (text_chunks_clean text) as H.
  unfold normalize_whitespace. rewrite splitlines_join; [exact H|].
  eapply List.Forall_impl; [|exact H]. intros c (? & ? & _). auto.
Qed.

(** X3: the texts that the normalization leaves unchanged are exactly
    the joins, with single newlines, of lines that are non-empty, hold no
    line boundary and no two spaces in a row and have no white space at
    either end. *)
Theorem normalize_whitespace_fixed_points (text : str) :
  normalize_whitespace text = text
  <-> exists lines, Forall clean_chunk lines /\ text = join [LF] lines.
Proof.
  split.
  - intros H. exists (text_chunks text). split.
    + apply text_chunks_clean.
    + symmetry. exact H.
  - intros (lines & Hl & ->). unfold normalize_whitespace.
    rewrite text_chunks_join by exact Hl. reflexivity.
Qed.

Lemma splitlines_nonempty s : s <> [] -> splitlines s <> [].
Proof.
  destruct s as [|c s]; [congruence|]. intros _.
  destruct (is_linebreak c) eqn:Hc.
  - simpl. rewrite Hc. destruct s as [|d s]; [discriminate|].
    destruct ((c =? CR) && (d =? LF))%N; discriminate.
  - rewrite splitlines_cons by exact Hc.
    destruct (splitlines s); discriminate.
Qed.

Lemma push_front_app c ps qs :
  ps <> [] -> push_front c (ps ++ qs) = push_front c ps ++ qs.
Proof. destruct ps; [congruence|reflexivity]. Qed.

(** A newline after a text closes its last line; when the text is empty
    or ends in a line boundary other than a carriage return, the newline
    makes an empty line of its own. *)
Lemma splitlines_app_LF a b :
  splitlines (a ++ LF :: b) = splitlines a ++ splitlines b
  \/ splitlines (a ++ LF :: b) = splitlines a ++ [] :: splitlines b.
Proof.
  induction a as [| c | c d l IHl IHdl] using list_ind2.
  - right. apply splitlines_LF.
  - destruct (is_linebreak c) eqn:Hc.
    + assert (H1 : splitlines [c] = [[]]) by (simpl; rewrite Hc; reflexivity).
      rewrite H1.
      change (splitlines ([c] ++ LF :: b)) with
        (if is_linebreak c
         then if ((c =? CR) && (LF =? LF))%N
              then [] :: splitlines b else [] :: splitlines (LF :: b)
         else push_front c (splitlines (LF :: b))).
      rewrite Hc. destruct ((c =? CR) && (LF =? LF))%N.
      * left. reflexivity.
      * right. rewrite splitlines_LF. reflexivity.
    + left. simpl app. rewrite splitlines_cons by exact Hc.
      rewrite splitlines_LF. simpl. rewrite Hc. reflexivity.
  - destruct (is_linebreak c) eqn:Hc.
    + change (splitlines ((c :: d :: l) ++ LF :: b)) with
        (if is_linebreak c
         then if ((c =? CR) && (d =? LF))%N
              then [] :: splitlines (l ++ LF :: b)
              else [] :: splitlines ((d :: l) ++ LF :: b)
         else push_front c (splitlines ((d :: l) ++ LF :: b))).
      change (splitlines (c :: d :: l)) with
        (if is_linebreak c
         then if ((c =? CR) && (d =? LF))%N
              then [] :: splitlines l else [] :: splitlines (d :: l)
         else push_front c (splitlines (d :: l))).
      rewrite Hc. destruct ((c =? CR) && (d =? LF))%N.
      * destruct IHl as [-> | ->]; [left|right]; reflexivity.
      * destruct IHdl as [-> | ->]; [left|right]; reflexivity.
    + rewrite <- app_comm_cons, !splitlines_cons by exact Hc.
      assert (Hne : splitlines (d :: l) <> [])
        by (apply splitlines_nonempty; discriminate).
      destruct IHdl as [-> | ->]; [left|right];
        apply push_front_app, Hne.
Qed.

(** X4: lines are cleaned one by one: the chunks of two texts put on
    separate lines are the chunks of the first followed by those of the
    second, and so is the clean text. *)
Theorem text_chunks_app_LF (a b : str) :
  text_chunks (a ++ LF :: b) = text_chunks a ++ text_chunks b
  /\ normalize_whitespace (a ++ LF :: b)
     = join [LF] (text_chunks a ++ text_chunks b).
Proof.
  assert (H : text_chunks (a ++ LF :: b) = text_chunks a ++ text_chunks b).
  { unfold text_chunks.
    destruct (splitlines_app_LF a b) as [-> | ->];
      rewrite List.map_app, List.flat_map_app, List.filter_app; reflexivity. }
  split; [exact H|]. unfold normalize_whitespace. rewrite H. reflexivity.
Qed.

Lemma join_length l :
  l <> [] -> length (join [LF] l) + 1 = length (concat l) + length l.
Proof.
  induction l as [|x l IH]; [congruence|]. intros _.
  destruct l as [|y l].
  - simpl. rewrite app_nil_r. lia.
  - change (join [LF] (x :: y :: l)) with (x ++ LF :: join [LF] (y :: l)).
    change (concat (x :: y :: l)) with (x ++ concat (y :: l)).
    rewrite !length_app. cbn [length].
    specialize (IH ltac:(discriminate)). cbn [length] in IH. lia.
Qed.

Lemma push_front_weight c ps :
  ps <> [] ->
  length (concat (push_front c ps)) + length (push_front c ps)
  = S (length (concat ps) + length ps).
Proof. destruct ps; [congruence|]. intros _. simpl. lia. Qed.

Lemma splitlines_weight s :
  length (concat (splitlines s)) + length (splitlines s) <= length s + 1.
Proof.
  induction s as [| c | c d l IHl IHdl] using list_ind2.
  - simpl. lia.
  - simpl. destruct (is_linebreak c); simpl; lia.
  - destruct (is_linebreak c) eqn:Hc.
    + change (splitlines (c :: d :: l)) with
        (if is_linebreak c
         then if ((c =? CR) && (d =? LF))%N
              then [] :: splitlines l else [] :: splitlines (d :: l)
         else push_front c (splitlines (d :: l))).
      rewrite Hc. destruct ((c =? CR) && (d =? LF))%N;
        cbn [concat app length] in *; lia.
    + rewrite splitlines_cons by exact Hc.
      rewrite push_front_weight
        by (apply splitlines_nonempty; discriminate).
      cbn [length] in *. lia.
Qed.

Lemma split_nonempty s : split_double_space s <> [].
Proof.
  destruct (split_head s) as (p & ps & -> & _). discriminate.
Qed.

Lemma split_weight s :
  length (concat (split_double_space s)) + length (split_double_space s)
  <= length s + 1.
Proof.
  induction s as [| c | c d l IHl IHdl] using list_ind2.
  - simpl. lia.
  - simpl. lia.
  - rewrite split_cons2. destruct ((c =? SP) && (d =? SP))%N.
    + cbn [concat app length] in *. lia.
    + rewrite push_front_weight by apply split_nonempty.
      cbn [length] in *. lia.
Qed.

Lemma lstrip_length s : length (lstrip s) <= length s.
Proof.
  induction s as [|c s IH]; simpl; [lia|].
  destruct (is_space c); simpl; lia.
Qed.

Lemma rstrip_length s : length (rstrip s) <= length s.
Proof.
  induction s as [|c s IH]; simpl; [lia|].
  destruct (rstrip s); [destruct (is_space c)|]; simpl in *; lia.
Qed.

Lemma strip_length s : length (strip s) <= length s.
Proof.
  unfold strip. pose proof (rstrip_length (lstrip s)).
  pose proof (lstrip_length s). lia.
Qed.

Lemma map_strip_weight l :
  length (concat (map strip l)) + length (map strip l)
  <= length (concat l) + length l.
Proof.
  induction l as [|x l IH]; simpl; [lia|].
  rewrite !length_app. pose proof (strip_length x). lia.
Qed.

Lemma filter_truthy_weight l :
  length (concat (List.filter truthy l)) + length (List.filter truthy l)
  <= length (concat l) + length l.
Proof.
  induction l as [|x l IH]; simpl; [lia|].
  destruct x; simpl; rewrite ?length_app; simpl; lia.
Qed.

Lemma chunks_weight lines :
  let chunks :=
    flat_map (fun line => map strip (split_double_space line))
             (map strip lines) in
  length (concat chunks) + length chunks
  <= length (concat lines) + length lines.
Proof.
  induction lines as [|line lines IH]; cbn zeta in *; [simpl; lia|].
  cbn [map flat_map concat]. rewrite concat_app, !length_app.
  pose proof (map_strip_weight (split_double_space (strip line))).
  pose proof (split_weight (strip line)).
  pose proof (strip_length line).
  cbn [length]. lia.
Qed.

(** X5: the clean text is never longer than the text it was made
    from. *)
Theorem normalize_whitespace_length (text : str) :
  length (normalize_whitespace text) <= length text.
Proof.
  unfold normalize_whitespace.
  destruct (text_chunks text) as [|c cs] eqn:Hc; [simpl; lia|].
  pose proof (join_length (c :: cs) ltac:(discriminate)) as Hj.
  rewrite <- Hc in *. unfold text_chunks in *.
  pose proof (filter_truthy_weight
                (flat_map (fun line => map strip (split_double_space line))
                          (map strip (splitlines text)))).
  pose proof (chunks_weight (splitlines text)) as Hw. cbn zeta in Hw.
  pose proof (splitlines_weight text). lia.
Qed.

Lemma ink_nil_blank s : ink s = [] -> blank s.
Proof.
  induction s as [|c s IH]; intros H; [constructor|].
  unfold ink in H. simpl in H. destruct (is_space c) eqn:Hc; simpl in H.
  - constructor; [exact Hc | apply IH; exact H].
  - discriminate.
Qed.

(** X14: the clean text is empty exactly when the text holds white
    space only. *)
Theorem normalize_whitespace_empty_iff_blank (text : str) :
  normalize_whitespace text = [] <-> blank text.
Proof.
  split.
  - intros H. apply ink_nil_blank. apply (f_equal ink) in H.
    unfold normalize_whitespace, text_chunks in H.
    rewrite ink_join, concat_filter_truthy, ink_chunks, ink_splitlines in H.
    exact H.
  - intros H. unfold normalize_whitespace.
    rewrite (text_chunks_blank _ H). reflexivity.
Qed.

Lemma extract_node_no_tag names n :
  forallb (fun m => negb (has_tag names m)) (Bs4.extract_node names n) = true.
Proof.
  induction n as [name attrs children IH | s | s] using node_ind';
    [|reflexivity..].
  cbn [Bs4.extract_node]. destruct (bool_decide (name ∈ names)) eqn:Hn;
    [reflexivity|].
  cbn [forallb has_tag]. rewrite Hn, andb_true_r. cbn [orb].
  apply negb_true_iff.
  induction IH as [|c cs Hc _ IHcs]; [reflexivity|].
  cbn [flat_map]. rewrite List.existsb_app. apply orb_false_intro; [|exact IHcs].
  clear IHcs. induction (Bs4.extract_node names c) as [|m ms IHms];
    [reflexivity|].
  cbn [forallb existsb] in Hc |- *. apply andb_prop in Hc as [Hm Hms].
  apply negb_true_iff in Hm. rewrite Hm. exact (IHms Hms).
Qed.

Lemma extract_node_fixed names n :
  has_tag names n = false -> Bs4.extract_node names n = [n].
Proof.
  induction n as [name attrs children IH | s | s] using node_ind';
    [|reflexivity..].
  cbn [has_tag Bs4.extract_node]. intros H.
  apply orb_false_elim in H as [Hn Hch]. rewrite Hn. do 2 f_equal.
  induction IH as [|c cs Hc _ IHcs]; [reflexivity|].
  cbn [existsb] in Hch. apply orb_false_elim in Hch as [H1 H2].
  cbn [flat_map]. rewrite (Hc H1), (IHcs H2). reflexivity.
Qed.

(** X18: after the loop that extracts the script and style tags, no tag
    of these names is left anywhere in the document, however deep it
    was, and running the loop again changes nothing. *)
Theorem extract_all_leaves_no_tag (names : list str) (doc : Bs4.soup) :
  forallb (fun n => negb (has_tag names n)) (Bs4.extract_all names doc) = true
  /\ Bs4.extract_all names (Bs4.extract_all names doc)
     = Bs4.extract_all names doc.
Proof.
  assert (H : forallb (fun n => negb (has_tag names n))
                      (Bs4.extract_all names doc) = true).
  { unfold Bs4.extract_all. induction doc as [|n doc IH]; [reflexivity|].
    cbn [flat_map]. rewrite List.forallb_app, extract_node_no_tag. exact IH. }
  split; [exact H|].
  unfold Bs4.extract_all in *.
  induction (flat_map (Bs4.extract_node names) doc) as [|m ms IHms];
    [reflexivity|].
  cbn [forallb] in H. apply andb_prop in H as [Hm Hms].
  apply negb_true_iff in Hm.
  cbn [flat_map]. rewrite (extract_node_fixed _ _ Hm), (IHms Hms). reflexivity.
Qed.

End CleanText.

(** * More on the routines and the browser *)

Section MoreEffects.

Variable env : Env.

Lemma bind_raise_inv {A B} (m : M A) (k : A -> M B) w e w' :
  bind m k w = (Raise e, w') ->
  m w = (Raise e, w')
  \/ exists a w1, m w = (Ok a, w1) /\ k a w1 = (Raise e, w').
Proof.
  unfold bind. destruct (m w) as [[a|e1] w1]; [eauto|].
  intros [= <- <-]. auto.
Qed.

Lemma quiet_run {A} (m : M A) w r w' :
  quiet m -> m w = (r, w') -> same_processes w w'.
Proof. intros H Hm. specialize (H w). rewrite Hm in H. exact H. Qed.

Lemma quiet_try_except {A} (body handler : M A) :
  quiet body -> quiet handler -> quiet (try_except body handler).
Proof.
  intros Hb Hh w. unfold try_except. specialize (Hb w).
  destruct (body w) as [[a|e] w1]; simpl in *; [exact Hb|].
  eapply same_processes_trans; [exact Hb | apply Hh].
Qed.

Lemma quiet_for_each {A B} (f : A -> M B) l :
  (forall x, quiet (f x)) -> quiet (for_each f l).
Proof.
  intros Hf. induction l as [|x l IH]; simpl.
  - apply quiet_ret.
  - apply quiet_bind; [apply Hf|]. intros y.
    apply quiet_bind; [exact IH|]. intros ys. apply quiet_ret.
Qed.

Lemma quiet_element_texts l : quiet (element_texts env l).
Proof.
  unfold element_texts. apply quiet_for_each. intros e.
  cbv [mbind M_bind mret M_ret]. quiet_steps.
Qed.

Lemma quiet_get_updated_html_context driver :
  quiet (get_updated_html_context env driver).
Proof.
  unfold get_updated_html_context. cbv [mbind M_bind mret M_ret].
  repeat first
    [ apply quiet_element_texts
    | apply quiet_bind; [|intros ?]
    | apply quiet_perform
    | apply quiet_ret ].
Qed.

Lemma quiet_on_error_quiet {A} (m : M A) : quiet m -> quiet_on_error m.
Proof. intros H w e w' Hm. eapply quiet_run; eauto. Qed.

Lemma quiet_on_error_bind {A B} (m : M A) (k : A -> M B) :
  quiet m -> (forall a, quiet_on_error (k a)) -> quiet_on_error (bind m k).
Proof.
  intros Hm Hk w e w' H.
  apply bind_raise_inv in H as [H | (a & w1 & H1 & H)].
  - eapply quiet_run; eauto.
  - eapply same_processes_trans; [eapply quiet_run; eauto | eapply Hk, H].
Qed.

Lemma quiet_on_error_close_browser d : quiet_on_error (close_browser env d).
Proof.
  intros w e w'. unfold close_browser, driver_quit.
  destruct (oracle env unit (Quit d) w); [discriminate|].
  intros [= _ <-]. split; reflexivity.
Qed.

Lemma launches_bind {A} (m : M A) (k : A -> M handle) :
  quiet m -> (forall a, launches (k a)) -> launches (bind m k).
Proof.
  intros Hm Hk w. unfold bind. specialize (Hm w).
  destruct (m w) as [[a|e] w1]; simpl in Hm; [|exact Hm].
  specialize (Hk a w1). destruct Hm as [Hr Hs].
  destruct (k a w1) as [[d|e] w2].
  - rewrite Hs, Hr in Hk. exact Hk.
  - eapply same_processes_trans; [split; eauto | exact Hk].
Qed.

Lemma launches_webdriver_start cls executable_path o :
  launches (webdriver_start env cls executable_path o).
Proof.
  intros w. unfold webdriver_start.
  destruct (oracle env unit _ w); simpl; [auto | split; reflexivity].
Qed.

Lemma launches_create_driver : launches (create_driver env).
Proof.
  unfold create_driver. cbv [mbind M_bind mret M_ret].
  repeat first
    [ apply launches_webdriver_start
    | apply launches_bind;
      [ first [ apply quiet_getitem | apply quiet_new_options
              | apply quiet_add_experimental_option
              | apply quiet_add_argument | apply quiet_perform
              | quiet_steps; apply quiet_add_argument ]
      | intros ? ]
    | match goal with
      | |- launches (if ?b then _ else _) => destruct b
      end ].
Qed.

Lemma browse_website_on_error url question w e w' :
  browse_website env url question w = (Raise e, w') ->
  same_processes w w'
  \/ (started w' = S (started w) /\ running w' = started w :: running w).
Proof.
  unfold browse_website. cbv [mbind M_bind mret M_ret]. intros H.
  pose proof (launches_create_driver w) as Hc.
  apply bind_raise_inv in H as [H | (d & w1 & H1 & H)].
  - rewrite H in Hc. auto.
  - rewrite H1 in Hc. destruct Hc as (-> & Hs & Hr). right.
    assert (Hq : same_processes w1 w').
    { revert H. generalize w1 e w'.
      change (quiet_on_error
                (bind (scrape_text_with_selenium env url (started w))
                   (fun '(driver, text) =>
                      bind (add_header env driver)
                        (fun _ =>
                           bind (summarize_text env url text question driver)
                             (fun summary_text =>
                                bind (scrape_links_with_selenium env driver url)
                                  (fun links =>
                                     bind (close_browser env driver)
                                       (fun _ =>
                                          ret (answer env summary_text
                                                 (limit_links links),
                                               driver)))))))).
      apply quiet_on_error_bind;
        [apply quiet_scrape_text_with_selenium|]. intros [driver text].
      apply quiet_on_error_bind; [apply quiet_add_header|]. intros _.
      apply quiet_on_error_bind; [apply quiet_summarize_text|]. intros s.
      apply quiet_on_error_bind;
        [apply quiet_scrape_links_with_selenium|]. intros links.
      intros w2 e2 w3 H.
      apply bind_raise_inv in H as [H | (u & w4 & _ & H)]; [|discriminate].
      eapply quiet_on_error_close_browser, H. }
    destruct Hq as [Hr' Hs'].
    split; [rewrite Hs'; exact Hs | rewrite Hr'; exact Hr].
Qed.

Lemma open_website_in_browser_on_error url question w e w' :
  open_website_in_browser env url question w = (Raise e, w') ->
  same_processes w w'
  \/ (started w' = S (started w) /\ running w' = started w :: running w).
Proof.
  unfold open_website_in_browser, wait_for_body.
  cbv [mbind M_bind mret M_ret]. intros H.
  pose proof (launches_create_driver w) as Hc.
  apply bind_raise_inv in H as [H | (d & w1 & H1 & H)].
  - rewrite H in Hc. auto.
  - rewrite H1 in Hc. destruct Hc as (-> & Hs & Hr). right.
    assert (Hq : same_processes w1 w').
    { eapply (quiet_run _ _ _ _ _ H). Unshelve.
      quiet_steps. }
    destruct Hq as [Hr' Hs'].
    split; [rewrite Hs'; exact Hs | rewrite Hr'; exact Hr].
Qed.

End MoreEffects.

(** X6: neither [browse_website] nor [open_website_in_browser] closes
    the browser when one of its steps raises: the exception leaves the
    routine either before a browser process was started or with the
    process it started still running. *)
Theorem browser_left_running_on_error :
  leaves_browser_on_error browse_website
  /\ leaves_browser_on_error open_website_in_browser.
Proof.
  split; intros env url question w e w' H.
  - eapply browse_website_on_error, H.
  - eapply open_website_in_browser_on_error, H.
Qed.

Section Progress.

Variable env : Env.
Hypothesis Hreliable : reliable env.

Lemma succeeds_ret {A} (a : A) : succeeds (ret a).
Proof using Type. intros w. exists a, w. reflexivity. Qed.

Lemma succeeds_bind {A B} (m : M A) (k : A -> M B) :
  succeeds m -> (forall a, succeeds (k a)) -> succeeds (bind m k).
Proof using Type.
  intros Hm Hk w. destruct (Hm w) as (a & w1 & H1).
  destruct (Hk a w1) as (b & w2 & H2). exists b, w2.
  rewrite (bind_ok _ _ _ _ _ H1). exact H2.
Qed.

Lemma succeeds_perform {A} (c : call A) : succeeds (perform env c).
Proof using Hreliable.
  intros w. destruct (Hreliable A c w) as [a Ha].
  exists a, (log c w). unfold perform. rewrite Ha. reflexivity.
Qed.

Lemma succeeds_webdriver_start cls executable_path o :
  succeeds (webdriver_start env cls executable_path o).
Proof using Hreliable.
  intros w. unfold webdriver_start.
  destruct (Hreliable unit (Start cls executable_path o) w) as [a ->]. eauto.
Qed.

Lemma succeeds_close_browser d : succeeds (close_browser env d).
Proof using Hreliable.
  intros w. unfold close_browser, driver_quit.
  destruct (Hreliable unit (Quit d) w) as [a ->]. eauto.
Qed.

Lemma succeeds_getitem {V} (d : gmap str V) k v :
  d !! k = Some v -> succeeds (getitem d k).
Proof using Type.
  intros H w. unfold getitem. rewrite H. exists v, w. reflexivity.
Qed.

Lemma options_available_supported (name : str) :
  name ∈ [py "chrome"; py "safari"; py "firefox"] ->
  exists cls, options_available !! name = Some cls.
Proof using Type.
  rewrite !elem_of_cons, elem_of_nil.
  intros [-> | [-> | [-> | []]]]; eexists; vm_compute; reflexivity.
Qed.

Ltac succeeds_steps :=
  repeat first
    [ apply succeeds_bind; [|intros ?]
    | apply succeeds_perform
    | apply succeeds_webdriver_start
    | apply succeeds_close_browser
    | apply succeeds_ret
    | match goal with
      | |- succeeds (if ?b then _ else _) => destruct b
      | |- succeeds (match ?x with _ => _ end) => destruct x
      end ].

Lemma succeeds_create_driver :
  selenium_web_browser (CFG env) ∈ [py "chrome"; py "safari"; py "firefox"] ->
  succeeds (create_driver env).
Proof using Hreliable.
  intros H. apply options_available_supported in H as [cls H].
  unfold create_driver, new_options, add_experimental_option, add_argument.
  cbv [mbind M_bind mret M_ret].
  apply succeeds_bind; [eapply succeeds_getitem, H|]. intros ?.
  succeeds_steps.
Qed.

Lemma succeeds_open_website_in_browser url question :
  selenium_web_browser (CFG env) ∈ [py "chrome"; py "safari"; py "firefox"] ->
  succeeds (open_website_in_browser env url question).
Proof using Hreliable.
  intros H. unfold open_website_in_browser, wait_for_body.
  cbv [mbind M_bind mret M_ret].
  apply succeeds_bind; [apply succeeds_create_driver, H|]. intros ?.
  succeeds_steps.
Qed.

End Progress.

(** X7: with chrome configured, [create_driver] and
    [open_website_in_browser] return whenever no call into the browser
    library raises: the options table has the browser, and nothing else
    in the two routines raises of its own. *)
Theorem chrome_routines_succeed (env : Env) (url question : str) :
  reliable env ->
  selenium_web_browser (CFG env) = py "chrome" ->
  succeeds (create_driver env)
  /\ succeeds (open_website_in_browser env url question).
Proof.
  intros Hr Hc.
  assert (Hs : selenium_web_browser (CFG env)
               ∈ [py "chrome"; py "safari"; py "firefox"])
    by (rewrite Hc; apply elem_of_cons; left; reflexivity).
  split.
  - apply succeeds_create_driver; assumption.
  - apply succeeds_open_website_in_browser; assumption.
Qed.

(** X8: [CFG.selenium_headless] is looked at for Chrome only: with
    firefox or safari configured, [create_driver] does the same whatever
    the flag says. *)
Theorem create_driver_headless_ignored (env : Env) (headless : bool)
    (w : world) :
  selenium_web_browser (CFG env) ∈ [py "firefox"; py "safari"] ->
  create_driver (with_headless headless env) w = create_driver env w.
Proof.
  rewrite !elem_of_cons, elem_of_nil. intros H.
  unfold create_driver. cbn [CFG with_headless selenium_web_browser].
  destruct (bool_decide (selenium_web_browser (CFG env) = py "firefox")) eqn:Hf;
    [reflexivity|].
  destruct (bool_decide (selenium_web_browser (CFG env) = py "safari")) eqn:Hs;
    [reflexivity|].
  apply bool_decide_eq_false in Hf, Hs. tauto.
Qed.

Section Launch.

Variable env : Env.


Lemma perform_ok_inv {A} (c : call A) w a w' :
  perform env c w = (Ok a, w') -> oracle env A c w = Ok a /\ w' = log c w.
Proof. unfold perform. intros [= -> <-]. auto. Qed.








End Launch.

Section Helpers.

Variable env : Env.

Lemma quiet_identify_form_field driver :
  quiet (identify_form_field env driver).
Proof.
  unfold identify_form_field. cbv [mbind M_bind mret M_ret]. quiet_steps.
Qed.

Lemma quiet_enter_text_into_form_field driver field_name text :
  quiet (enter_text_into_form_field env driver field_name text).
Proof.
  unfold enter_text_into_form_field. cbv [mbind M_bind mret M_ret].
  quiet_steps.
Qed.

Lemma quiet_navigate_by_click_button driver button_text :
  quiet (navigate_by_click_button env driver button_text).
Proof.
  unfold navigate_by_click_button, wait_for_body.
  cbv [mbind M_bind mret M_ret].
  apply quiet_try_except; [|apply quiet_ret].
  repeat first
    [ apply quiet_get_updated_html_context
    | apply quiet_bind; [|intros ?]
    | apply quiet_perform
    | apply quiet_ret ].
Qed.

Lemma quiet_get_updated_html driver : quiet (get_updated_html env driver).
Proof.
  unfold get_updated_html. cbv [mbind M_bind mret M_ret].
  apply quiet_try_except; [|apply quiet_ret].
  apply quiet_bind; [apply quiet_get_updated_html_context|].
  intros ?. apply quiet_ret.
Qed.

Lemma quiet_find_button_name driver : quiet (find_button_name env driver).
Proof.
  unfold find_button_name. cbv [mbind M_bind mret M_ret].
  apply quiet_try_except; [|apply quiet_ret].
  apply quiet_bind; [apply quiet_get_updated_html_context|].
  intros ?. apply quiet_ret.
Qed.

Lemma quiet_click_button driver : quiet (click_button env driver).
Proof.
  unfold click_button, list_text. cbv [mbind M_bind mret M_ret].
  apply quiet_try_except; [|apply quiet_ret]. quiet_steps.
Qed.

(** X10: the QA helpers work on the browser they are given: whether
    they return or raise, none of them starts a browser process or ends
    one. *)
Theorem qa_helpers_keep_browser (driver : handle) (name text : str) :
  quiet (identify_form_field env driver)
  /\ quiet (enter_text_into_form_field env driver name text)
  /\ quiet (navigate_by_click_button env driver name)
  /\ quiet (get_updated_html env driver)
  /\ quiet (find_button_name env driver)
  /\ quiet (click_button env driver).
Proof.
  split; [|split; [|split; [|split; [|split]]]].
  - apply quiet_identify_form_field.
  - apply quiet_enter_text_into_form_field.
  - apply quiet_navigate_by_click_button.
  - apply quiet_get_updated_html.
  - apply quiet_find_button_name.
  - apply quiet_click_button.
Qed.

Lemma scrape_text_with_selenium_ok_inv url driver w d' text w' :
  scrape_text_with_selenium env url driver w = (Ok (d', text), w') ->
  let c1 := Get driver url in
  let c2 := WaitUntilPresent driver 10 By_TAG_NAME (py "body") in
  let c3 := ExecuteScript driver (py "return document.body.outerHTML;") in
  d' = driver
  /\ w' = log c3 (log c2 (log c1 w))
  /\ exists page_source,
       oracle env str c3 (log c2 (log c1 w)) = Ok page_source
       /\ text = text_of_page env page_source.
Proof.
  unfold scrape_text_with_selenium, wait_for_body.
  cbv [mbind M_bind mret M_ret]. intros H.
  apply bind_ok_inv in H as ([] & w1 & H1 & H).
  apply perform_ok_inv in H1 as [H1 ->].
  apply bind_ok_inv in H as ([] & w2 & H2 & H).
  apply perform_ok_inv in H2 as [H2 ->].
  apply bind_ok_inv in H as (page_source & w3 & H3 & H).
  apply perform_ok_inv in H3 as [H3 ->].
  injection H as <- <- <-. eauto.
Qed.

(** X13: [scrape_text_with_selenium] has no handler.  When loading the
    page, the wait for the body or the reading of the markup raises, it
    raises the same exception and has made no later call: after a wait
    that ran out the markup is not read.  When it returns, the driver it
    returns is the one it was given. *)
Theorem scrape_text_with_selenium_propagates (url : str) (driver : handle)
    (w : world) (e : exn) :
  let c1 := Get driver url in
  let c2 := WaitUntilPresent driver 10 By_TAG_NAME (py "body") in
  let c3 := ExecuteScript driver (py "return document.body.outerHTML;") in
  (oracle env _ c1 w = Raise e ->
   scrape_text_with_selenium env url driver w = (Raise e, log c1 w))
  /\ (oracle env _ c1 w = Ok tt ->
      oracle env _ c2 (log c1 w) = Raise e ->
      scrape_text_with_selenium env url driver w
      = (Raise e, log c2 (log c1 w)))
  /\ (oracle env _ c1 w = Ok tt ->
      oracle env _ c2 (log c1 w) = Ok tt ->
      oracle env _ c3 (log c2 (log c1 w)) = Raise e ->
      scrape_text_with_selenium env url driver w
      = (Raise e, log c3 (log c2 (log c1 w))))
  /\ (forall r w',
        scrape_text_with_selenium env url driver w = (Ok r, w') ->
        fst r = driver).
Proof.
  intros c1 c2 c3.
  unfold scrape_text_with_selenium, wait_for_body, perform.
  cbv [mbind M_bind mret M_ret bind ret]. fold c1 c2 c3.
  split; [|split; [|split]].
  - intros ->. reflexivity.
  - intros -> ->. reflexivity.
  - intros -> -> ->. reflexivity.
  - intros r w'. destruct (oracle env _ c1 w); [|discriminate].
    destruct (oracle env _ c2 _); [|discriminate].
    destruct (oracle env _ c3 _); [|discriminate].
    intros [= <- _]. reflexivity.
Qed.

(** X15: [identify_form_field] has no handler: it returns the pair of
    its message and the text of the body exactly when both the lookup
    of the body and the reading of its text succeed, and raises what the
    first failing call raised otherwise. *)
Theorem identify_form_field_result (driver : handle) (w w' : world)
    (r : result pyval) :
  identify_form_field env driver w = (r, w') ->
  let c := FindElement driver By_XPATH (Some (py "/html/body")) in
  match r with
  | Ok v =>
      exists body body_text,
        oracle env _ c w = Ok body
        /\ oracle env _ (ElementText body) (log c w) = Ok body_text
        /\ v = VTuple [VStr (py "Current valid html"); VStr body_text]
  | Raise e =>
      oracle env _ c w = Raise e
      \/ exists body,
           oracle env _ c w = Ok body
           /\ oracle env _ (ElementText body) (log c w) = Raise e
  end.
Proof.
  intros H c. unfold identify_form_field, perform in H.
  cbv [mbind M_bind mret M_ret bind ret] in H. fold c in H.
  destruct (oracle env _ c w) as [body|e] eqn:H1.
  - destruct (oracle env _ (ElementText body) (log c w)) as [t|e] eqn:H2;
      injection H as <- _; eauto.
  - injection H as <- _. auto.
Qed.

(** X16: [click_button] asks the browser for the buttons and for nothing
    else: whatever that lookup answers, the helper returns its error
    string without having looked up the inputs or the body, and without
    a click. *)
Theorem click_button_one_lookup (driver : handle) (w : world) :
  click_button env driver w
  = (Ok (VStr (py "Error: That button doesn't exist, please identify the correct button first")),
     log (FindElements driver By_XPATH (py "//button")) w).
Proof.
  unfold click_button, try_except, list_text, perform.
  cbv [mbind M_bind mret M_ret bind ret raise].
  destruct (oracle env _ _ w); reflexivity.
Qed.

(** X17: when [browse_website] returns, the calls it made after the
    driver was created are, in this order: loading the page, the wait
    for the body, reading the markup, reading the overlay script,
    running it, the summarizer on the clean text of the markup read,
    reading the page source for the links, and quitting.  All of them
    are on the driver it returns, and closing the browser is the last
    of them. *)
Theorem browse_website_call_order (url question : str) (w w' : world)
    (r : str * handle) :
  browse_website env url question w = (Ok r, w') ->
  let d := snd r in
  let c1 := Get d url in
  let c2 := WaitUntilPresent d 10 By_TAG_NAME (py "body") in
  let c3 := ExecuteScript d (py "return document.body.outerHTML;") in
  let c4 := ReadFile (FILE_DIR env ++ py "/js/overlay.js") in
  exists w1 page_source script,
    create_driver env w = (Ok d, w1)
    /\ oracle env str c3 (log c2 (log c1 w1)) = Ok page_source
    /\ oracle env str c4 (log c3 (log c2 (log c1 w1))) = Ok script
    /\ history w'
       = [Event (Quit d);
          Event (PageSource d);
          Event (SummarizeText url (text_of_page env page_source) question d);
          Event (ExecuteScript d script);
          Event c4; Event c3; Event c2; Event c1]
         ++ history w1.
Proof.
  unfold browse_website. cbv [mbind M_bind mret M_ret]. intros H.
  apply bind_ok_inv in H as (d & w1 & H1 & H).
  apply bind_ok_inv in H as ([d' text] & w2 & H2 & H).
  apply scrape_text_with_selenium_ok_inv in H2
    as (-> & -> & page_source & Hp & ->).
  unfold add_header, summarize_text, scrape_links_with_selenium in H.
  cbv [mbind M_bind mret M_ret] in H.
  apply bind_ok_inv in H as (? & w3 & H3 & H).
  apply bind_ok_inv in H3 as (script & w3' & Hs & H3).
  apply perform_ok_inv in Hs as [Hs ->].
  apply bind_ok_inv in H3 as (? & w3'' & Hx & H3).
  apply perform_ok_inv in Hx as [_ ->]. injection H3 as _ <-.
  apply bind_ok_inv in H as (summary & w4 & H4 & H).
  apply perform_ok_inv in H4 as [_ ->].
  apply bind_ok_inv in H as (links & w5 & H5 & H).
  apply bind_ok_inv in H5 as (source & w5' & H5' & H5).
  apply perform_ok_inv in H5' as [_ ->]. injection H5 as _ <-.
  cbv zeta in H.
  apply bind_ok_inv in H as (? & w6 & H6 & H).
  injection H as <- <-. cbn [snd].
  unfold close_browser, driver_quit in H6.
  destruct (oracle env unit (Quit d) _); [|discriminate].
  injection H6 as _ <-.
  exists w1, page_source, script. auto.
Qed.

End Helpers.

(** * The statements at the static pages *)

Example splitlines_ex :
  splitlines (py "ab" ++ [CR; LF] ++ py "c" ++ [LF; LF] ++ py "d" ++ [LF])
  = [py "ab"; py "c"; []; py "d"].
Proof. reflexivity. Qed.

Example split_ex :
  split_double_space (py "a   b    c") = [py "a"; py " b"; []; py "c"].
Proof. reflexivity. Qed.

Example strip_ex : strip ([9; 32] ++ py "a b" ++ [160; 10])%N = py "a b".
Proof. reflexivity. Qed.

Example text_of_about_page :
  text_of_page (Fixture.env_of (Fixture.browser Fixture.about_markup) "chrome")
               Fixture.about_markup
  = join [LF] [py "Example"; py "Domain"; py "More"; py "information AboutTop"].
Proof. vm_compute. reflexivity. Qed.

Lemma empty_page_empty_text_witness :
  let env := Fixture.env_of (Fixture.browser Fixture.script_only_markup) "chrome" in
  only_script_style (BeautifulSoup env Fixture.script_only_markup)
  /\ fetched env (py "https://example.com/page") 0 Fixture.fresh
             Fixture.script_only_markup
  /\ text_of_page env Fixture.script_only_markup = []
  /\ fst (scrape_text_with_selenium env (py "https://example.com/page") 0
            Fixture.fresh)
     = Ok (0, []).
Proof.
  intros env.
  assert (H : only_script_style (BeautifulSoup env Fixture.script_only_markup))
    by (vm_compute; reflexivity).
  assert (Hf : fetched env (py "https://example.com/page") 0 Fixture.fresh
                 Fixture.script_only_markup)
    by (repeat split; reflexivity).
  destruct (empty_page_empty_text env Fixture.script_only_markup (or_introl H))
    as [Ht Hs].
  split; [exact H|]. split; [exact Hf|]. split; [exact Ht|].
  exact (Hs _ _ _ Hf).
Defined.

Example twelve_anchors_five_links :
  let env := Fixture.env_of (Fixture.browser Fixture.twelve_markup) "chrome" in
  let links :=
    links_of_page env Fixture.twelve_markup (py "https://example.com/page") in
  length links = 12
  /\ limit_links links
     = [py "a (https://example.com/a)"; py "b (https://example.com/b)";
        py "c (https://example.com/c)"; py "d (https://example.com/d)";
        py "e (https://example.com/e)"].
Proof. split; vm_compute; reflexivity. Qed.

Lemma hyperlinks_absolute_witness :
  Url.is_absolute (py "https://example.com/page") = true
  /\ Html.extract_hyperlinks Fixture.about_doc (py "https://example.com/page")
     = [(py "About", py "https://example.com/about")]
  /\ Forall (fun h => Url.is_absolute (snd h) = true)
            (Html.extract_hyperlinks Fixture.about_doc
               (py "https://example.com/page")).
Proof.
  split; [reflexivity|]. split; [vm_compute; reflexivity|].
  apply (hyperlinks_absolute Fixture.about_doc (py "https://example.com/page")).
  reflexivity.
Defined.

Lemma create_driver_unsupported_witness :
  let env := Fixture.env_of (Fixture.browser Fixture.about_markup) "edge" in
  (selenium_web_browser (CFG env) ∉ [py "chrome"; py "safari"; py "firefox"])
  /\ create_driver env Fixture.fresh = (Raise (KeyError (py "edge")), Fixture.fresh).
Proof.
  intros env.
  assert (H : selenium_web_browser (CFG env)
              ∉ [py "chrome"; py "safari"; py "firefox"]).
  { rewrite !not_elem_of_cons. repeat split; try apply not_elem_of_nil;
      intros E; vm_compute in E; discriminate. }
  split; [exact H|]. exact (create_driver_unsupported env Fixture.fresh H).
Defined.

Lemma browse_website_answer_witness :
  let env := Fixture.env_of (Fixture.browser Fixture.twelve_markup) "chrome" in
  let url := py "https://example.com/page" in
  let question := py "Which pages are linked?" in
  length (links_of_page env Fixture.twelve_markup url) = 12
  /\ browse_website env url question Fixture.fresh
     = (Ok (py "Answer gathered from website: abcdefghijkl"
            ++ [SP; LF; SP; LF]
            ++ py " Links: ['a (https://example.com/a)', 'b (https://example.com/b)', 'c (https://example.com/c)', 'd (https://example.com/d)', 'e (https://example.com/e)']",
            0),
        snd (browse_website env url question Fixture.fresh)).
Proof.
  intros env url question. split; [vm_compute; reflexivity|].
  set (w1 := snd (create_driver env Fixture.fresh)).
  set (w2 := snd (scrape_text_with_selenium env url 0 w1)).
  set (text := text_of_page env Fixture.twelve_markup).
  set (w3 := snd (add_header env 0 w2)).
  set (w4 := snd (summarize_text env url text question 0 w3)).
  set (w5 := snd (scrape_links_with_selenium env 0 url w4)).
  set (w6 := snd (close_browser env 0 w5)).
  rewrite (browse_website_answer env url question Fixture.fresh
             w1 w2 w3 w4 w5 w6 0 0 text text
             (links_of_page env Fixture.twelve_markup url));
    vm_compute; reflexivity.
Defined.

(** Counterexample to C8 as it is stated: in a browser in which every
    call succeeds [open_website_in_browser] returns with the process it
    started still running. *)
Lemma open_website_in_browser_not_released :
  let env := Fixture.env_of (Fixture.browser Fixture.about_markup) "chrome" in
  let run :=
    open_website_in_browser env (py "https://example.com/page")
      (py "What is this page about?") Fixture.fresh in
  fst run = Ok (py "Website is now open using the selenium webdriver", 0)
  /\ running (snd run) = [0]
  /\ ~ acquires_and_releases open_website_in_browser.
Proof.
  intros env run.
  assert (H1 : fst run
               = Ok (py "Website is now open using the selenium webdriver", 0))
    by (vm_compute; reflexivity).
  assert (H2 : running (snd run) = [0]) by (vm_compute; reflexivity).
  split; [exact H1|]. split; [exact H2|]. intros H.
  destruct run as [r w'] eqn:E. simpl in H1, H2. subst r.
  apply H in E as (_ & _ & Hgone). apply Hgone. rewrite H2. simpl. auto.
Qed.

Lemma browser_process_life_cycle_witness :
  let env := Fixture.env_of (Fixture.browser Fixture.about_markup) "chrome" in
  let url := py "https://example.com/page" in
  let question := py "What is this page about?" in
  ~ In 0 (running (snd (browse_website env url question Fixture.fresh)))
  /\ running (snd (open_website_in_browser env url question Fixture.fresh))
     = [0].
Proof.
  intros env url question. split.
  - destruct (browse_website env url question Fixture.fresh)
      as [[r|e] w'] eqn:E; [|vm_compute in E; discriminate].
    destruct (proj1 browser_process_life_cycle _ _ _ _ _ _ E) as (Hr & _ & H).
    simpl. rewrite Hr in H. exact H.
  - destruct (open_website_in_browser env url question Fixture.fresh)
      as [[r|e] w'] eqn:E; [|vm_compute in E; discriminate].
    destruct (proj2 browser_process_life_cycle _ _ _ _ _ _ E) as (Hr & _ & H).
    simpl. rewrite H, Hr. reflexivity.
Defined.

(** C6 does not hold of [enter_text_into_form_field]: it has no handler,
    and on a page without the field the exception of the lookup reaches
    the caller, where [navigate_by_click_button], which has a handler,
    returns the error string for the same lookup. *)
Theorem enter_text_into_form_field_raises :
  let env :=
    Fixture.env_of (Fixture.browser_without_elements Fixture.about_markup)
                   "chrome" in
  fst (enter_text_into_form_field env 0 (py "username") (py "alice")
         Fixture.fresh)
  = Raise NoSuchElementException
  /\ fst (navigate_by_click_button env 0 (py "username") Fixture.fresh)
     = Ok (VStr (py "Error: That button doesn't exist, please identify the correct button first")).
Proof. split; vm_compute; reflexivity. Qed.

(** C10 does not hold of [click_button]: in a browser in which every
    lookup succeeds, where [get_updated_html] returns the pair of the
    status message and the page context, [click_button] returns the bare
    error string.  It asks the list of the elements found for its text,
    which raises, and its handler catches that. *)
Theorem click_button_returns_error_string :
  let env := Fixture.env_of (Fixture.browser Fixture.about_markup) "chrome" in
  fst (get_updated_html env 0 Fixture.fresh)
  = Ok (VTuple
          [VStr (py "Current valid website context");
           VDict [(py "body_text", VList [VStr (py "Submit"); VStr (py "Submit")]);
                  (py "buttons", VList [VStr (py "Submit"); VStr (py "Submit")]);
                  (py "inputs", VList [VStr (py "Submit"); VStr (py "Submit")])]])
  /\ fst (click_button env 0 Fixture.fresh)
     = Ok (VStr (py "Error: That button doesn't exist, please identify the correct button first")).
Proof. split; vm_compute; reflexivity. Qed.

Example get_updated_html_string :
  let env :=
    Fixture.env_of (Fixture.browser_gone Fixture.about_markup) "chrome" in
  fst (get_updated_html env 0 Fixture.fresh)
  = Ok (VStr (py "Error: Can't seem to get html, please stop doing QA and get some help")).
Proof. vm_compute. reflexivity. Qed.

Example get_updated_html_no_elements :
  let env :=
    Fixture.env_of (Fixture.browser_without_elements Fixture.about_markup)
                   "chrome" in
  fst (get_updated_html env 0 Fixture.fresh)
  = Ok (VTuple
          [VStr (py "Current valid website context");
           VDict [(py "body_text", VList []); (py "buttons", VList []);
                  (py "inputs", VList [])]]).
Proof. vm_compute. reflexivity. Qed.

(** * The further statements at the static pages *)

Lemma browser_reliable page name :
  reliable (Fixture.env_of (Fixture.browser page) name).
Proof.
  intros A c w. destruct c; try (destruct m); eexists; reflexivity.
Qed.

Lemma browser_left_running_on_error_witness :
  let env := Fixture.env_of (Fixture.browser_gone Fixture.about_markup) "chrome" in
  let run :=
    browse_website env (py "https://example.com/page")
      (py "What is this page about?") Fixture.fresh in
  fst run = Raise WebDriverException
  /\ started (snd run) = 1
  /\ running (snd run) = [0].
Proof.
  intros env run.
  assert (H1 : fst run = Raise WebDriverException) by (vm_compute; reflexivity).
  assert (H2 : running (snd run) = [0]) by (vm_compute; reflexivity).
  split; [exact H1|].
  destruct run as [r w'] eqn:E. simpl in H1, H2 |- *. subst r.
  destruct (proj1 browser_left_running_on_error _ _ _ _ _ _ E)
    as [[Hr Hs] | [Hs Hr]].
  - rewrite H2 in Hr. discriminate.
  - split; [exact Hs | exact Hr].
Defined.

Lemma chrome_routines_succeed_witness :
  let env := Fixture.env_of (Fixture.browser Fixture.about_markup) "chrome" in
  let url := py "https://example.com/page" in
  let question := py "What is this page about?" in
  reliable env
  /\ selenium_web_browser (CFG env) = py "chrome"
  /\ succeeds (create_driver env)
  /\ succeeds (open_website_in_browser env url question).
Proof.
  intros env url question.
  pose proof (browser_reliable Fixture.about_markup "chrome") as Hr.
  split; [exact Hr|]. split; [reflexivity|].
  exact (chrome_routines_succeed env url question Hr eq_refl).
Defined.

Lemma create_driver_headless_ignored_witness :
  let env := Fixture.env_of (Fixture.browser Fixture.about_markup) "firefox" in
  (selenium_web_browser (CFG env) ∈ [py "firefox"; py "safari"])
  /\ selenium_headless (CFG env) = true
  /\ create_driver (with_headless false env) Fixture.fresh
     = create_driver env Fixture.fresh.
Proof.
  intros env.
  assert (H : selenium_web_browser (CFG env) ∈ [py "firefox"; py "safari"])
    by (apply elem_of_cons; left; reflexivity).
  split; [exact H|]. split; [reflexivity|].
  exact (create_driver_headless_ignored env false Fixture.fresh H).
Defined.


Lemma scrape_text_with_selenium_propagates_witness :
  let env := Fixture.env_of (browser_timeout Fixture.about_markup) "chrome" in
  let url := py "https://example.com/page" in
  scrape_text_with_selenium env url 0 Fixture.fresh
  = (Raise TimeoutException,
     {| running := []; started := 0;
        history := [Event (WaitUntilPresent 0 10 By_TAG_NAME (py "body"));
                    Event (Get 0 url)] |}).
Proof.
  intros env url.
  destruct (scrape_text_with_selenium_propagates env url 0 Fixture.fresh
              TimeoutException) as (_ & H & _).
  rewrite (H eq_refl eq_refl). reflexivity.
Defined.

Lemma identify_form_field_result_witness :
  let env := Fixture.env_of (Fixture.browser Fixture.about_markup) "chrome" in
  exists body_text,
    fst (identify_form_field env 0 Fixture.fresh)
    = Ok (VTuple [VStr (py "Current valid html"); VStr body_text]).
Proof.
  intros env.
  destruct (identify_form_field env 0 Fixture.fresh)
    as [[v|e] w'] eqn:E; [|vm_compute in E; discriminate].
  destruct (identify_form_field_result env 0 _ _ _ E)
    as (body & body_text & _ & _ & ->).
  exists body_text. reflexivity.
Defined.

Lemma browse_website_call_order_witness :
  let env := Fixture.env_of (Fixture.browser Fixture.about_markup) "chrome" in
  let url := py "https://example.com/page" in
  let question := py "What is this page about?" in
  history (snd (browse_website env url question Fixture.fresh))
  = [Event (Quit 0);
     Event (PageSource 0);
     Event (SummarizeText url (text_of_page env Fixture.about_markup)
              question 0);
     Event (ExecuteScript 0 (py "/* overlay */"));
     Event (ReadFile (py "/app/autogpt/js/overlay.js"));
     Event (ExecuteScript 0 (py "return document.body.outerHTML;"));
     Event (WaitUntilPresent 0 10 By_TAG_NAME (py "body"));
     Event (Get 0 url)]
    ++ history (snd (create_driver env Fixture.fresh)).
Proof.
  intros env url question.
  destruct (browse_website env url question Fixture.fresh)
    as [[r|e] w'] eqn:E; [|vm_compute in E; discriminate].
  assert (Hr : snd r = 0).
  { pose proof (f_equal fst E) as H. vm_compute in H.
    injection H as <-. reflexivity. }
  destruct (browse_website_call_order env _ _ _ _ _ E)
    as (w1 & page_source & script & Hc & Hp & Hs & Hh).
  rewrite Hr in Hc, Hp, Hs, Hh. cbn [snd]. rewrite Hh, Hc. cbn [snd].
  change (oracle env str
            (ExecuteScript 0 (py "return document.body.outerHTML;")) _)
    with (@Ok str Fixture.about_markup) in Hp.
  change (oracle env str (ReadFile _) _)
    with (@Ok str (py "/* overlay */")) in Hs.
  injection Hp as <-. injection Hs as <-. reflexivity.
Defined.

Example normalize_whitespace_ex :
  normalize_whitespace
    ([9] ++ py "Price   12  EUR " ++ [CR; LF; LF] ++ py "  in stock" ++ [160])%N
  = join [LF] [py "Price"; py "12"; py "EUR"; py "in stock"].
Proof. vm_compute. reflexivity. Qed.
